(** * images-proxy: wallpaper catalogue pagination and image proxy

    A shallow embedding of the TypeScript sources

      - [src/lib/wallpaper-utils.ts]: the catalogue cache, the pagination,
        the list of sources and the Bing feed;
      - [src/api/v1/index.ts]: the API routes, and the proxy URL helpers
        and statistics of [lib/proxy-utils];
      - the image-proxy route with base path [/api/findaphoto].

    Conventions of the embedding.

    - A JavaScript string is a sequence of UTF-16 code units.  The model
      uses [string], that is sequences of code units below 256 (the
      Latin-1 range); [toLowerCase], white space and line terminators are
      the ECMAScript ones restricted to that range.
    - A JavaScript [number] that the code only ever uses as an integer
      (array lengths, page numbers and sizes, counters, millisecond
      clocks) is a [Z].  Doubles are exact on integers of magnitude below
      2^53; beyond that range, where a double rounds or overflows, the
      model keeps the exact integer.  [NaN] and the infinities are
      modelled where a division or a failed [parseInt] produces them.
    - A JSON body has the TypeScript type the source casts it to.
    - Module-level [let] variables become fields of an explicit store that
      every function threads; [try]/[catch] is the handler of an error
      monad; [await fetch(..)] reads the outcome of the request from an
      explicit description of what the network answers.
    - [new URL(..)] is the runtime's parser and stays a parameter of the
      functions that call it.
    - [console.error] only writes to the log and is left out. *)

From Stdlib Require Import ZArith QArith List String Ascii Bool Lia.
From Stdlib Require Import Sorting.Sorted Sorting.Permutation.
From Stdlib Require Import Structures.OrdersEx Numbers.DecimalString.
Import ListNotations.

Open Scope string_scope.
Open Scope Z_scope.

(* ===================================================================== *)
(** * The JavaScript runtime operations the sources use *)
(* ===================================================================== *)

Module JS.

(** ** Numbers *)

(** The values a [number] takes in the arithmetic of the sources. *)
Inductive number : Type :=
| Num (z : Z)
| NaN
| Infinity
| NegInfinity.

Definition isNaN (n : number) : bool :=
  match n with NaN => true | _ => false end.

(** [a < b] on numbers: every comparison with [NaN] is false. *)
Definition lt (a b : number) : bool :=
  match a, b with
  | NaN, _ | _, NaN => false
  | Num x, Num y => x <? y
  | NegInfinity, NegInfinity => false
  | NegInfinity, _ => true
  | _, NegInfinity => false
  | Infinity, _ => false
  | Num _, Infinity => true
  end.

Definition sub (a b : number) : number :=
  match a, b with
  | NaN, _ | _, NaN => NaN
  | Num x, Num y => Num (x - y)
  | Infinity, Infinity | NegInfinity, NegInfinity => NaN
  | Infinity, _ | _, NegInfinity => Infinity
  | NegInfinity, _ | _, Infinity => NegInfinity
  end.

Definition add (a b : number) : number :=
  match a, b with
  | NaN, _ | _, NaN => NaN
  | Num x, Num y => Num (x + y)
  | Infinity, NegInfinity | NegInfinity, Infinity => NaN
  | Infinity, _ | _, Infinity => Infinity
  | NegInfinity, _ | _, NegInfinity => NegInfinity
  end.

Definition signed_infinity (s : Z) : number :=
  if s =? 0 then NaN else if 0 <? s then Infinity else NegInfinity.

Definition mul (a b : number) : number :=
  match a, b with
  | NaN, _ | _, NaN => NaN
  | Num x, Num y => Num (x * y)
  | Num x, Infinity | Infinity, Num x => signed_infinity x
  | Num x, NegInfinity | NegInfinity, Num x => signed_infinity (- x)
  | Infinity, Infinity | NegInfinity, NegInfinity => Infinity
  | Infinity, NegInfinity | NegInfinity, Infinity => NaN
  end.

(** [Math.ceil(a / b)] for an integer numerator [a]: the quotient is a
    fraction, its ceiling is an integer again. *)
Definition ceil_div (a : Z) (b : number) : number :=
  match b with
  | NaN => NaN
  | Infinity | NegInfinity => Num 0
  | Num y => if y =? 0 then signed_infinity a else Num (- ((- a) / y))
  end.

(** ** Characters *)

Definition code (c : ascii) : Z := Z.of_nat (nat_of_ascii c).

(** WhiteSpace and LineTerminator code units (below 256): TAB, LF, VT, FF,
    CR, SP and NBSP.  This is the set [trim] and [parseInt] strip. *)
Definition isWhiteSpace (c : ascii) : bool :=
  let n := code c in
  ((9 <=? n) && (n <=? 13)) || (n =? 32) || (n =? 160).

(** LineTerminator code units (below 256): the ones [.] does not match. *)
Definition isLineTerminator (c : ascii) : bool :=
  let n := code c in (n =? 10) || (n =? 13).

Definition isDigit (c : ascii) : bool :=
  let n := code c in (48 <=? n) && (n <=? 57).

Definition digitValue (c : ascii) : Z := code c - 48.

(** Unicode simple lower-casing on code units below 256: A-Z and the
    capital letters U+00C0..U+00DE (without the multiplication sign
    U+00D7) move up by 32. *)
Definition toLowerCaseChar (c : ascii) : ascii :=
  let n := code c in
  if ((65 <=? n) && (n <=? 90))
     || ((192 <=? n) && (n <=? 222) && negb (n =? 215))
  then ascii_of_nat (Z.to_nat (n + 32))
  else c.

(** ** Strings *)

Fixpoint toLowerCase (s : string) : string :=
  match s with
  | EmptyString => EmptyString
  | String c r => String (toLowerCaseChar c) (toLowerCase r)
  end.

Fixpoint trimStart (s : string) : string :=
  match s with
  | EmptyString => EmptyString
  | String c r => if isWhiteSpace c then trimStart r else s
  end.

Fixpoint rev (s : string) : string :=
  match s with
  | EmptyString => EmptyString
  | String c r => rev r ++ String c EmptyString
  end.

Definition trimEnd (s : string) : string := rev (trimStart (rev s)).

Definition trim (s : string) : string := trimEnd (trimStart s).

(** [s.startsWith(p)] *)
Definition startsWith (s p : string) : bool := String.prefix p s.

(** [s.endsWith(p)] *)
Definition endsWith (s p : string) : bool := String.prefix (rev p) (rev s).

(** [s.indexOf(p)]: the first position at which [p] occurs. *)
Fixpoint indexOf (s p : string) : option nat :=
  if String.prefix p s then Some O
  else match s with
       | EmptyString => None
       | String _ r => option_map S (indexOf r p)
       end.

(** [s.includes(p)] *)
Definition includes (s p : string) : bool :=
  match indexOf s p with Some _ => true | None => false end.

(** [s.substring(n)] for [0 <= n]. *)
Fixpoint substringFrom (n : nat) (s : string) : string :=
  match n, s with
  | O, _ => s
  | S _, EmptyString => EmptyString
  | S m, String _ r => substringFrom m r
  end.

(** [s.replace(p, r)] with string arguments: only the first occurrence. *)
Fixpoint replace (s p r : string) : string :=
  if String.prefix p s then r ++ substringFrom (String.length p) s
  else match s with
       | EmptyString => EmptyString
       | String c t => String c (replace t p r)
       end.

(** [s.replace(/c/g, r)] for a one-character pattern: every occurrence. *)
Fixpoint replaceAllChar (s : string) (c : ascii) (r : string) : string :=
  match s with
  | EmptyString => EmptyString
  | String d t =>
      (if Ascii.eqb d c then r else String d EmptyString) ++ replaceAllChar t c r
  end.

(** [s.split(sep)] for a one-character separator. *)
Fixpoint split (s : string) (sep : ascii) : list string :=
  match s with
  | EmptyString => [EmptyString]
  | String c r =>
      match split r sep with
      | [] => [String c EmptyString]
      | w :: ws => if Ascii.eqb c sep then EmptyString :: w :: ws
                   else String c w :: ws
      end
  end.

(** [a.pop()] read as an expression: the last element, if any. *)
Definition pop {A : Type} (l : list A) : option A :=
  match List.rev l with [] => None | x :: _ => Some x end.

(** ** Truthiness and defaults *)

(** [if (s)] for [s : string | undefined | null]. *)
Definition truthy (s : option string) : bool :=
  match s with
  | None => false
  | Some EmptyString => false
  | Some _ => true
  end.

(** [s || d] for [s : string | undefined]. *)
Definition orElse (s : option string) (d : string) : string :=
  match s with
  | Some (String c r) => String c r
  | _ => d
  end.

(** ** parseInt(s, 10) *)

(** The value of the longest prefix of decimal digits, and whether that
    prefix is non-empty; [acc] is the value read so far. *)
Fixpoint readDigits (acc : Z) (seen : bool) (s : string) : option Z :=
  match s with
  | String c r =>
      if isDigit c then readDigits (10 * acc + digitValue c) true r
      else if seen then Some acc else None
  | EmptyString => if seen then Some acc else None
  end.

(** ECMAScript [parseInt(string, 10)]: strip leading white space, read an
    optional sign, then the longest run of decimal digits; whatever
    follows is ignored; no digit at all gives [NaN]. *)
Definition parseInt (s : string) : number :=
  let t := trimStart s in
  let '(sign, body) :=
    match t with
    | String c r =>
        if (c =? "-")%char then (-1, r)
        else if (c =? "+")%char then (1, r)
        else (1, t)
    | EmptyString => (1, t)
    end in
  match readDigits 0 false body with
  | None => NaN
  | Some v => Num (sign * v)
  end.

(** ** Array.prototype.slice *)

(** ToIntegerOrInfinity followed by the clamping of a relative index
    into [0, len]. *)
Definition relativeIndex (len : Z) (i : number) : Z :=
  match i with
  | NaN => 0
  | NegInfinity => 0
  | Infinity => len
  | Num z => if z <? 0 then Z.max (len + z) 0 else Z.min z len
  end.

(** [a.slice(start, end)] *)
Definition slice {A : Type} (a : list A) (start finish : number) : list A :=
  let len := Z.of_nat (List.length a) in
  let k := relativeIndex len start in
  let final := relativeIndex len finish in
  firstn (Z.to_nat (final - k)) (skipn (Z.to_nat k) a).

(** ** Set and sort on arrays of strings *)

(** [[...new Set(a)]]: the distinct elements in order of first occurrence. *)
Fixpoint setAdd (seen : list string) (x : string) : list string :=
  match seen with
  | [] => [x]
  | y :: r => if String.eqb x y then seen else y :: setAdd r x
  end.

Definition uniqueInOrder (a : list string) : list string :=
  fold_left setAdd a [].

(** [a.sort()] with the default comparator: ascending order of code
    units.  The engine's algorithm is not observable on the result, which
    the order determines; the model inserts one element at a time. *)
Fixpoint sortInsert (x : string) (l : list string) : list string :=
  match l with
  | [] => [x]
  | y :: r => if String.leb x y then x :: l else y :: sortInsert x r
  end.

Definition sort (a : list string) : list string :=
  fold_right sortInsert [] a.

End JS.

(* ===================================================================== *)
(** * Effects: a store, exceptions and [try]/[catch] *)
(* ===================================================================== *)

Module Eff.

(** A thrown value: [new Error(message)] or a [TypeError] of the runtime. *)
Inductive Error : Type :=
| MkError (message : string)
| TypeError (message : string).

Definition message (e : Error) : string :=
  match e with MkError m | TypeError m => m end.

Inductive result (A : Type) : Type :=
| Ok (a : A)
| Throw (e : Error).
Arguments Ok {A} a.
Arguments Throw {A} e.

(** A computation over the store [S]: it returns or throws, and leaves a
    store behind in both cases (an assignment made before a [throw] stays
    made). *)
Definition M (S A : Type) : Type := S -> result A * S.

Definition ret {S A} (a : A) : M S A := fun s => (Ok a, s).

Definition throw {S A} (e : Error) : M S A := fun s => (Throw e, s).

Definition bind {S A B} (c : M S A) (k : A -> M S B) : M S B :=
  fun s => match c s with
           | (Ok a, s') => k a s'
           | (Throw e, s') => (Throw e, s')
           end.

(** [try { c } catch (error) { h error }] *)
Definition tryCatch {S A} (c : M S A) (h : Error -> M S A) : M S A :=
  fun s => match c s with
           | (Ok a, s') => (Ok a, s')
           | (Throw e, s') => h e s'
           end.

Definition get {S} : M S S := fun s => (Ok s, s).

Definition modify {S} (f : S -> S) : M S unit := fun s => (Ok tt, f s).

(** A computation without effect on the store that may throw. *)
Definition lift {S A} (r : result A) : M S A := fun s => (r, s).

Declare Scope eff_scope.
Delimit Scope eff_scope with eff.
Notation "x <- c ;; k" := (bind c (fun x => k))
  (at level 61, c at next level, right associativity) : eff_scope.
Notation "c ;; k" := (bind c (fun _ => k))
  (at level 61, right associativity) : eff_scope.

End Eff.

(* ===================================================================== *)
(** * src/lib/wallpaper-utils.ts *)
(* ===================================================================== *)

Module WallpaperUtils.
Import Eff.
Local Open Scope eff_scope.

Record WallpaperItem : Type := {
  src_rawSrc : string;
  colors : list string;
  rate : Q;
  like : Q;
  _id : string;
  imgId : string;
  dimensions : string;
  source : string
}.

Record BingWallpaperItem : Type := {
  startdate : string;
  fullstartdate : string;
  enddate : string;
  url : string;
  urlbase : string;
  copyright : string;
  copyrightlink : string;
  title : string;
  quiz : string;
  wp : bool;
  hsh : string;
  drk : Z;
  top : Z;
  bot : Z;
  hs : list string   (* any[]: carried through untouched *)
}.

Record WallpaperListData : Type := {
  data_list : list WallpaperItem;
  total : Z;
  page : JS.number;
  totalPage : JS.number
}.

Record WallpaperListResponse : Type := {
  code : Z;
  data : WallpaperListData;
  message : string
}.

Record BingWallpaperData : Type := {
  bing_url : string;
  bing_list : list BingWallpaperItem;
  bing_total : Z;
  bing_date : string
}.

Record BingWallpaperResponse : Type := {
  bing_code : Z;
  bing_data : BingWallpaperData;
  bing_message : string
}.

(** The module-level variables. *)
Record Store : Type := {
  cachedData : option (list WallpaperItem);
  lastCacheTime : Z;
  cachedBingData : option (list BingWallpaperItem);
  lastBingCacheTime : Z
}.

Definition initialStore : Store :=
  {| cachedData := None; lastCacheTime := 0;
     cachedBingData := None; lastBingCacheTime := 0 |}.

Definition CACHE_DURATION : Z := 5 * 60 * 1000.
Definition BING_CACHE_DURATION : Z := 60 * 60 * 1000.

(** What [await fetch(url)] followed by [await response.json()] gives:
    the request is rejected, or a response arrives with a status and a
    body that parses as JSON ([Some]) or does not ([None]). *)
Inductive FetchResult (A : Type) : Type :=
| NetworkError
| HttpResponse (status : Z) (json : option A).
Arguments NetworkError {A}.
Arguments HttpResponse {A} status json.

(** [response.ok] *)
Definition ok (status : Z) : bool := (200 <=? status) && (status <=? 299).

(** What one call sees of the outside: the clock, and what the two
    endpoints answer when asked.  For the Bing feed the parsed body is
    the [images] member of the answer, absent ([None]) or an array. *)
Record Env : Type := {
  now : Z;                                          (* Date.now() *)
  isoDate : string;                                 (* new Date().toISOString() *)
  catalog : FetchResult (list WallpaperItem);
  bingFeed : FetchResult (option (list BingWallpaperItem))
}.

Definition showZ (z : Z) : string := NilZero.string_of_int (Z.to_int z).

Definition fetchJson {A} (r : FetchResult A) (failure : string) : M Store A :=
  match r with
  | NetworkError => throw (TypeError "fetch failed")
  | HttpResponse status json =>
      if negb (ok status) then throw (MkError (failure ++ showZ status))
      else match json with
           | None => throw (MkError "Unexpected token in JSON")
           | Some d => ret d
           end
  end.

Definition loadWallpaperData (env : Env) : M Store (list WallpaperItem) :=
  let refresh : M Store (list WallpaperItem) :=
    tryCatch
      (d <- fetchJson (catalog env) "Failed to fetch data: " ;;
       modify (fun st => {| cachedData := Some d; lastCacheTime := now env;
                            cachedBingData := cachedBingData st;
                            lastBingCacheTime := lastBingCacheTime st |}) ;;
       ret d)
      (fun _ => throw (MkError "Failed to load wallpaper data")) in
  st <- get ;;
  match cachedData st with
  | Some cached =>
      if now env - lastCacheTime st <? CACHE_DURATION then ret cached
      else refresh
  | None => refresh
  end.

Definition loadBingWallpaperData (env : Env) : M Store (list BingWallpaperItem) :=
  let refresh : M Store (list BingWallpaperItem) :=
    tryCatch
      (d <- fetchJson (bingFeed env) "Failed to fetch Bing data: " ;;
       let images := match d with Some l => l | None => [] end in
       modify (fun st => {| cachedData := cachedData st;
                            lastCacheTime := lastCacheTime st;
                            cachedBingData := Some images;
                            lastBingCacheTime := now env |}) ;;
       ret images)
      (fun _ => throw (MkError "Failed to load Bing wallpaper data")) in
  st <- get ;;
  match cachedBingData st with
  | Some cached =>
      if now env - lastBingCacheTime st <? BING_CACHE_DURATION then ret cached
      else refresh
  | None => refresh
  end.

(** The filter of [getWallpaperList]: all items unless [source] is given
    and not blank, else the items whose [source] contains it, both in
    lower case. *)
Definition filterBySource (allData : list WallpaperItem) (source' : option string)
  : list WallpaperItem :=
  match source' with
  | Some s =>
      if JS.truthy source' && negb (JS.trim s =? "")%string
      then filter (fun item =>
                     JS.includes (JS.toLowerCase (source item)) (JS.toLowerCase s))
                  allData
      else allData
  | None => allData
  end.

Definition emptyPage (c : Z) (m : string) : WallpaperListResponse :=
  {| code := c;
     data := {| data_list := []; total := 0; page := JS.Num 1; totalPage := JS.Num 0 |};
     message := m |}.

(** [pageSize] is [None] when the caller leaves the argument out: the
    default [20] applies. *)
Definition getWallpaperList (page' source' : option string) (pageSize : option JS.number)
           (env : Env) : M Store WallpaperListResponse :=
  let pageSize := match pageSize with Some n => n | None => JS.Num 20 end in
  tryCatch
    (allData <- loadWallpaperData env ;;
     let filteredData := filterBySource allData source' in
     let currentPage := JS.parseInt (JS.orElse page' "1") in
     if JS.isNaN currentPage || JS.lt currentPage (JS.Num 1)
     then ret (emptyPage 400 "Invalid page number")
     else
       let total' := Z.of_nat (List.length filteredData) in
       let totalPage' := JS.ceil_div total' pageSize in
       let startIndex := JS.mul (JS.sub currentPage (JS.Num 1)) pageSize in
       let endIndex := JS.add startIndex pageSize in
       let list := JS.slice filteredData startIndex endIndex in
       ret {| code := 200;
              data := {| data_list := list; total := total';
                         page := currentPage; totalPage := totalPage' |};
              message := "Success" |})
    (fun _ => ret (emptyPage 500 "Internal server error")).

Definition getBingWallpaperList (env : Env) : M Store BingWallpaperResponse :=
  tryCatch
    (bingData <- loadBingWallpaperData env ;;
     (* bingData[0].url: reading a property of [undefined] throws *)
     first <- match bingData with
              | [] => throw (TypeError "Cannot read properties of undefined (reading 'url')")
              | b :: _ => ret b
              end ;;
     ret {| bing_code := 200;
            bing_data := {| bing_url := "https://www.bing.com" ++ url first;
                            bing_list := bingData;
                            bing_total := Z.of_nat (List.length bingData);
                            bing_date := isoDate env |};
            bing_message := "Success" |})
    (fun _ =>
       ret {| bing_code := 500;
              bing_data := {| bing_url := ""; bing_list := []; bing_total := 0;
                              bing_date := isoDate env |};
              bing_message := "Internal server error" |}).

Definition getAvailableSources (env : Env) : M Store (list string) :=
  tryCatch
    (allData <- loadWallpaperData env ;;
     let sources := JS.uniqueInOrder (map source allData) in
     ret (JS.sort sources))
    (fun _ => ret []).

End WallpaperUtils.

(* ===================================================================== *)
(** * Regular expressions of the shape [literal(.+)] *)
(* ===================================================================== *)

Module RegExp.

(** SyntaxCharacter of the pattern grammar; every other character of a
    pattern stands for itself. *)
Definition isSyntaxCharacter (c : ascii) : bool :=
  existsb (Ascii.eqb c)
    ["^"; "$"; "\"; "."; "*"; "+"; "?"; "("; ")"; "["; "]"; "{"; "}"; "|"]%char.

(** Reads a pattern source made of plain characters and escaped slashes
    [\/] followed by the group [(.+)], and returns the text the part
    before the group matches; [None] for a source of any other shape. *)
Fixpoint literalBeforeGroup (source : string) : option string :=
  match source with
  | EmptyString => None
  | String c r =>
      if (c =? "(")%char then
        if (r =? ".+)")%string then Some EmptyString else None
      else if (c =? "\")%char then
        match r with
        | String d r' =>
            if (d =? "/")%char then option_map (String "/"%char) (literalBeforeGroup r')
            else None
        | EmptyString => None
        end
      else if isSyntaxCharacter c then None
      else option_map (String c) (literalBeforeGroup r)
  end.

(** The longest prefix [.+] or [.*] can take: up to a line terminator. *)
Fixpoint takeDots (s : string) : string :=
  match s with
  | EmptyString => EmptyString
  | String c r => if JS.isLineTerminator c then EmptyString else String c (takeDots r)
  end.

(** [s.match(/literal(.+)/)] read at capture group 1: the leftmost
    position where [literal] occurs followed by a character that is not
    a line terminator; the group is greedy. *)
Fixpoint execLiteralGroup (literal s : string) : option string :=
  let here :=
    if String.prefix literal s
    then match takeDots (JS.substringFrom (String.length literal) s) with
         | EmptyString => None
         | g => Some g
         end
    else None in
  match here with
  | Some g => Some g
  | None => match s with
            | EmptyString => None
            | String _ r => execLiteralGroup literal r
            end
  end.

Section Engine.
(** The engine on every other pattern source: [new RegExp(source)]
    throws a SyntaxError, or the match gives group 1 or fails. *)
Variable engine : string -> string -> Eff.result (option string).

(** [s.match(new RegExp(source))] read at capture group 1. *)
Definition matchGroup1 (source s : string) : Eff.result (option string) :=
  match literalBeforeGroup source with
  | Some literal => Eff.Ok (execLiteralGroup literal s)
  | None => engine source s
  end.
End Engine.

End RegExp.

(* ===================================================================== *)
(** * src/api/v1/index.ts: proxy URL helpers and statistics *)
(* ===================================================================== *)

Module ProxyUtils.

(** The members of a [URL] object the sources read. *)
Record URL : Type := {
  protocol : string;
  hostname : string;
  pathname : string
}.

Record ProxyConfig : Type := {
  baseUrl : string;
  originalDomain : string;
  proxyPath : string
}.

Definition DEFAULT_PROXY_CONFIG : ProxyConfig :=
  {| baseUrl := "https://your-domain.vercel.app";
     originalDomain := "infinitypro-img.infinitynewtab.com";
     proxyPath := "/api/wallpaper" |}.

Record Validation : Type := {
  valid : bool;
  reason : option string
}.

Record ImageMetadata : Type := {
  filename : string;
  extension : string;
  mimeType : string;
  isSupported : bool
}.

(** [mimeTypes[extension.toLowerCase()] || 'image/jpeg'] over the six own
    keys of the table. *)
Definition getMimeType (extension' : string) : string :=
  let e := JS.toLowerCase extension' in
  if (e =? "jpg")%string then "image/jpeg"
  else if (e =? "jpeg")%string then "image/jpeg"
  else if (e =? "png")%string then "image/png"
  else if (e =? "webp")%string then "image/webp"
  else if (e =? "gif")%string then "image/gif"
  else if (e =? "bmp")%string then "image/bmp"
  else "image/jpeg".

Section Runtime.

(** [new URL(s)] of the runtime (the WHATWG URL parser): [None] when
    the constructor throws. *)
Variable URL_parse : string -> option URL.

(** The runtime's regular expression engine on the patterns the model
    does not read itself. *)
Variable RegExp_engine : string -> string -> Eff.result (option string).

Definition convertToProxyUrl (originalUrl : string) (config : ProxyConfig)
  : option string :=
  match URL_parse originalUrl with
  | None => None                                   (* catch *)
  | Some url =>
      if negb (hostname url =? originalDomain config)%string then None
      else
        (* url.pathname.match(/\/wallpaper\/(.+)/) *)
        match RegExp.execLiteralGroup "/wallpaper/" (pathname url) with
        | None => None
        | Some path => Some (baseUrl config ++ proxyPath config ++ "/" ++ path)
        end
  end.

Definition convertToOriginalUrl (proxyUrl : string) (config : ProxyConfig)
  : option string :=
  match URL_parse proxyUrl with
  | None => None                                   (* catch *)
  | Some url =>
      let source := JS.replaceAllChar (proxyPath config) "/"%char "\/" ++ "\/(.+)" in
      match RegExp.matchGroup1 RegExp_engine source (pathname url) with
      | Eff.Throw _ => None                        (* catch *)
      | Eff.Ok None => None
      | Eff.Ok (Some path) =>
          Some ("https://" ++ originalDomain config ++ "/wallpaper/" ++ path)
      end
  end.

Definition validExtensions : list string :=
  [".jpg"; ".jpeg"; ".png"; ".webp"; ".gif"; ".bmp"].

Definition validateImageUrl (url : string) : Validation :=
  match URL_parse url with
  | None => {| valid := false; reason := Some "Invalid URL format" |}   (* catch *)
  | Some urlObj =>
      if negb (existsb (String.eqb (protocol urlObj)) ["http:"; "https:"])
      then {| valid := false; reason := Some "Invalid protocol" |}
      else
        let hasValidExtension :=
          existsb (fun ext => JS.endsWith (JS.toLowerCase (pathname urlObj)) ext)
                  validExtensions in
        if negb hasValidExtension
        then {| valid := false; reason := Some "Invalid image extension" |}
        else {| valid := true; reason := None |}
  end.

Definition generateImageMetadata (url : string) : option ImageMetadata :=
  match URL_parse url with
  | None => None                                   (* catch *)
  | Some urlObj =>
      let filename' := JS.orElse (JS.pop (JS.split (pathname urlObj) "/"%char)) "image" in
      let extension' :=
        JS.orElse (option_map JS.toLowerCase (JS.pop (JS.split filename' "."%char)))
                  "jpg" in
      Some {| filename := filename';
              extension := extension';
              mimeType := getMimeType extension';
              isSupported :=
                existsb (String.eqb extension') ["jpg"; "jpeg"; "png"; "webp"; "gif"] |}
  end.

End Runtime.

(** ** Statistics *)

Record ProxyStats : Type := {
  totalRequests : Z;
  successfulRequests : Z;
  failedRequests : Z;
  cacheHits : Z;
  averageResponseTime : Q;
  lastRequestTime : Z     (* the instant [new Date()] read, in milliseconds *)
}.

(** The initial value of [proxyStats], the module being loaded at [now]. *)
Definition initialStats (now : Z) : ProxyStats :=
  {| totalRequests := 0; successfulRequests := 0; failedRequests := 0;
     cacheHits := 0; averageResponseTime := 0%Q; lastRequestTime := now |}.

(** [updateProxyStats(success, responseTime, fromCache)] run at the
    instant [now].  A call with two arguments has [fromCache = false]. *)
Definition updateProxyStats (now : Z) (success : bool) (responseTime : Z)
           (fromCache : bool) (proxyStats : ProxyStats) : ProxyStats :=
  let total := totalRequests proxyStats + 1 in
  {| totalRequests := total;
     successfulRequests :=
       if success then successfulRequests proxyStats + 1
       else successfulRequests proxyStats;
     failedRequests :=
       if success then failedRequests proxyStats
       else failedRequests proxyStats + 1;
     cacheHits :=
       if fromCache then cacheHits proxyStats + 1 else cacheHits proxyStats;
     averageResponseTime :=
       ((averageResponseTime proxyStats * inject_Z (total - 1)
         + inject_Z responseTime) / inject_Z total)%Q;
     lastRequestTime := now |}.

Definition getProxyStats (proxyStats : ProxyStats) : ProxyStats :=
  {| totalRequests := totalRequests proxyStats;
     successfulRequests := successfulRequests proxyStats;
     failedRequests := failedRequests proxyStats;
     cacheHits := cacheHits proxyStats;
     averageResponseTime := averageResponseTime proxyStats;
     lastRequestTime := lastRequestTime proxyStats |}.

Definition resetProxyStats (now : Z) (_ : ProxyStats) : ProxyStats :=
  initialStats now.

End ProxyUtils.

(* ===================================================================== *)
(** * The image-proxy route [GET /api/findaphoto/*] *)
(* ===================================================================== *)

Module FindaphotoProxy.
Import Eff.
Local Open Scope eff_scope.

(** What the handler reads of the incoming request. *)
Record Request : Type := {
  param_star : option string;          (* c.req.param('*') *)
  req_path : string;                   (* c.req.path *)
  if_none_match : option string;       (* c.req.header('if-none-match') *)
  if_modified_since : option string    (* c.req.header('if-modified-since') *)
}.

(** What the handler reads of the origin's response.  [body] is what
    [await response.arrayBuffer()] gives, [None] when it rejects. *)
Record OriginResponse : Type := {
  status : Z;
  statusText : string;
  content_type : option string;
  content_length : option string;
  last_modified : option string;
  etag : option string;
  body : option (list Byte.byte)
}.

Definition Headers : Type := list (string * string).

(** What one invocation sees of the outside: the successive readings of
    the clock, and the origin's answer to a request ([None]: [fetch]
    rejects). *)
Record Env : Type := {
  clock : nat -> Z;
  fetch : string -> Headers -> option OriginResponse
}.

(** The process-wide state: the statistics of [proxy-utils], the number
    of clock readings made so far, and the record of the calls made to
    [updateProxyStats], oldest first. *)
Record World : Type := {
  proxyStats : ProxyUtils.ProxyStats;
  reads : nat;
  updates : list (bool * Z * bool)
}.

Inductive JsonValue : Type :=
| JString (s : string)
| JNumber (z : Z).

Inductive Response : Type :=
| JsonResponse (fields : list (string * JsonValue)) (status' : Z)   (* c.json(obj, status) *)
| RawResponse (body' : option (list Byte.byte)) (status' : Z) (headers : Headers).

(** [Date.now()] *)
Definition Date_now (env : Env) : M World Z :=
  fun w => (Ok (clock env (reads w)),
            {| proxyStats := proxyStats w; reads := S (reads w); updates := updates w |}).

(** The call [updateProxyStats(success, responseTime, fromCache)]: it
    reads the clock once for [lastRequestTime]. *)
Definition updateProxyStats (env : Env) (success : bool) (responseTime : Z)
           (fromCache : bool) : M World unit :=
  fun w => (Ok tt,
            {| proxyStats :=
                 ProxyUtils.updateProxyStats (clock env (reads w)) success responseTime
                                             fromCache (proxyStats w);
               reads := S (reads w);
               updates := updates w ++ [(success, responseTime, fromCache)] |}).

(** ** The [Headers] class *)

Definition isHttpWhitespace (c : ascii) : bool :=
  let n := JS.code c in (n =? 9) || (n =? 10) || (n =? 13) || (n =? 32).

Fixpoint stripLeading (s : string) : string :=
  match s with
  | EmptyString => EmptyString
  | String c r => if isHttpWhitespace c then stripLeading r else s
  end.

Definition normalizeValue (v : string) : string :=
  JS.rev (stripLeading (JS.rev (stripLeading v))).

(** A header value holds no NUL, LF or CR. *)
Fixpoint isHeaderValue (v : string) : bool :=
  match v with
  | EmptyString => true
  | String c r =>
      let n := JS.code c in
      negb ((n =? 0) || (n =? 10) || (n =? 13)) && isHeaderValue r
  end.

Fixpoint replaceHeader (name value : string) (h : Headers) : Headers :=
  match h with
  | [] => [(name, value)]
  | (n, v) :: r =>
      if (JS.toLowerCase n =? JS.toLowerCase name)%string then (n, value) :: r
      else (n, v) :: replaceHeader name value r
  end.

(** [headers.set(name, value)]: throws a TypeError on an invalid value. *)
Definition Headers_set (name value : string) (h : Headers) : result Headers :=
  let v := normalizeValue value in
  if isHeaderValue v then Ok (replaceHeader name v h)
  else Throw (TypeError "Invalid header value").

(** [if (value) headers.set(name, value)] *)
Definition Headers_setIfPresent (name : string) (value : option string) (h : Headers)
  : result Headers :=
  match value with
  | Some (String c r) => Headers_set name (String c r) h
  | _ => Ok h
  end.

Definition andThen {A B} (r : result A) (k : A -> result B) : result B :=
  match r with Ok a => k a | Throw e => Throw e end.

Section Handler.
Variable URL_parse : string -> option ProxyUtils.URL.
Variable env : Env.

(** The request headers sent to the origin. *)
Definition fetchHeaders (req : Request) : Headers :=
  ([("User-Agent", "Mozilla/5.0 (Windows NT 10.0; Win64; x64) AppleWebKit/537.36");
    ("Accept", "image/webp,image/apng,image/*,*/*;q=0.8");
    ("Accept-Language", "zh-CN,zh;q=0.9,en;q=0.8");
    ("Referer", "https://infinitynewtab.com/")]
   ++ (if JS.truthy (if_none_match req)
       then [("If-None-Match", JS.orElse (if_none_match req) "")] else [])
   ++ (if JS.truthy (if_modified_since req)
       then [("If-Modified-Since", JS.orElse (if_modified_since req) "")] else []))%list.

(** The response headers of a proxied image, up to [X-Original-URL]. *)
Definition headersBeforeTiming (originalUrl : string) (response : OriginResponse)
  : result Headers :=
  let contentType := JS.orElse (content_type response) "image/jpeg" in
  andThen (Headers_set "Content-Type" contentType []) (fun h =>
  andThen (Headers_set "Cache-Control" "public, max-age=31536000, immutable" h) (fun h =>
  andThen (Headers_set "Access-Control-Allow-Origin" "*" h) (fun h =>
  andThen (Headers_set "Access-Control-Allow-Methods" "GET, HEAD, OPTIONS" h) (fun h =>
  andThen (Headers_set "Access-Control-Allow-Headers" "Content-Type" h) (fun h =>
  andThen (Headers_setIfPresent "Content-Length" (content_length response) h) (fun h =>
  andThen (Headers_setIfPresent "Last-Modified" (last_modified response) h) (fun h =>
  andThen (Headers_setIfPresent "ETag" (etag response) h) (fun h =>
  andThen (Headers_set "X-Proxy-Source" "infinity-wallpaper-proxy" h) (fun h =>
  Headers_set "X-Original-URL" originalUrl h))))))))).

(** The remaining ones, from [X-Response-Time] on. *)
Definition headersFromTiming (originalUrl : string) (elapsed : Z) (h : Headers)
  : result Headers :=
  let metadata := ProxyUtils.generateImageMetadata URL_parse originalUrl in
  andThen (Headers_set "X-Response-Time" (WallpaperUtils.showZ elapsed ++ "ms") h) (fun h =>
  andThen (Headers_set "X-Cache-Status" "miss" h) (fun h =>
  match metadata with
  | Some m =>
      andThen (Headers_set "X-Image-Format" (ProxyUtils.extension m) h) (fun h =>
      Headers_set "X-Image-Filename" (ProxyUtils.filename m) h)
  | None => Ok h
  end)).

(** The path the handler proxies: the wildcard parameter, else the
    request path without the route prefix; one leading slash is dropped. *)
Definition requestPath (req : Request) : string :=
  let path := JS.orElse (param_star req)
                        (JS.replace (req_path req) "/api/findaphoto/" "") in
  if JS.startsWith path "/" then JS.substringFrom 1 path else path.

Definition originalUrlOf (path : string) : string :=
  "https://infinitypro-img.infinitynewtab.com/findaphoto/" ++ path.

(** [app.get('/*', async (c) => ...)] *)
Definition handler (req : Request) : M World Response :=
  startTime <- Date_now env ;;
  tryCatch
    (let path := requestPath req in
     if (path =? "")%string then
       t <- Date_now env ;;
       updateProxyStats env false (t - startTime) false ;;
       ret (JsonResponse [("error", JString "Path is required")] 400)
     else
       let originalUrl := originalUrlOf path in
       let validation := ProxyUtils.validateImageUrl URL_parse originalUrl in
       if negb (ProxyUtils.valid validation) then
         t <- Date_now env ;;
         updateProxyStats env false (t - startTime) false ;;
         ret (JsonResponse
                (("error", JString "Invalid image URL")
                 :: match ProxyUtils.reason validation with
                    | Some r => [("reason", JString r)]
                    | None => []
                    end)
                400)
       else
         response <- match fetch env originalUrl (fetchHeaders req) with
                     | Some r => ret r
                     | None => throw (TypeError "fetch failed")
                     end ;;
         if status response =? 304 then
           t <- Date_now env ;;
           updateProxyStats env true (t - startTime) true ;;
           ret (RawResponse None 304
                  [("Cache-Control", "public, max-age=31536000, immutable");
                   ("X-Proxy-Source", "infinity-wallpaper-proxy");
                   ("X-Cache-Status", "not-modified")])
         else if negb (WallpaperUtils.ok (status response)) then
           t <- Date_now env ;;
           updateProxyStats env false (t - startTime) false ;;
           let statusCode :=
             if (400 <=? status response) && (status response <? 600)
             then status response else 404 in
           ret (JsonResponse
                  [("error", JString "Image not found");
                   ("status", JNumber (status response));
                   ("originalUrl", JString originalUrl)]
                  statusCode)
         else
           imageBuffer <- match body response with
                          | Some b => ret b
                          | None => throw (TypeError "body stream failed")
                          end ;;
           headers <- lift (headersBeforeTiming originalUrl response) ;;
           t <- Date_now env ;;
           headers <- lift (headersFromTiming originalUrl (t - startTime) headers) ;;
           t <- Date_now env ;;
           updateProxyStats env true (t - startTime) false ;;
           ret (RawResponse (Some imageBuffer) 200 headers))
    (fun error =>
       t <- Date_now env ;;
       updateProxyStats env false (t - startTime) false ;;
       ret (JsonResponse
              [("error", JString "Internal server error");
               ("message", JString (message error))]
              500)).

End Handler.

End FindaphotoProxy.

(* ===================================================================== *)
(** * src/api/v1/index.ts: the API routes *)
(* ===================================================================== *)

Module ApiV1.
Import Eff.
Local Open Scope eff_scope.

(** [app.get('/getWallpaperList', ...)]: the HTTP status and the body. *)
Definition getWallpaperListRoute (page source pageSize : option string)
           (env : WallpaperUtils.Env)
  : M WallpaperUtils.Store (Z * WallpaperUtils.WallpaperListResponse) :=
  let parsedPageSize :=
    if JS.truthy pageSize then JS.parseInt (JS.orElse pageSize "") else JS.Num 20 in
  data <- WallpaperUtils.getWallpaperList page source (Some parsedPageSize) env ;;
  if WallpaperUtils.code data =? 200 then ret (200, data)
  else if WallpaperUtils.code data =? 400 then ret (400, data)
  else ret (500, data).

(** [app.get('/getSources', ...)]: the HTTP status, [code], [data] and
    [message]. *)
Definition getSourcesRoute (env : WallpaperUtils.Env)
  : M WallpaperUtils.Store (Z * (Z * list string * string)) :=
  tryCatch
    (sources <- WallpaperUtils.getAvailableSources env ;;
     ret (200, (200, sources, "Success")))
    (fun _ => ret (500, (500, [], "Failed to get sources"))).

End ApiV1.


(* ===================================================================== *)
(** * src/api/v1/index.ts: batch conversion, cache keys, optimized URLs *)
(* ===================================================================== *)

Module ProxyUrls.
Import ProxyUtils.

(** ** batchConvertUrls *)

(** [item.src]: the [rawSrc] member, the [proxyUrl] member the function
    adds, and the other members, which are copied. *)
Record Src (B : Type) : Type := {
  rawSrc : option string;
  proxyUrl : option string;
  src_rest : B
}.
Arguments rawSrc {B} s.
Arguments proxyUrl {B} s.
Arguments src_rest {B} s.

(** An element of [items]: the optional [src] member and the other
    members, which are copied. *)
Record Item (A B : Type) : Type := {
  src : option (Src B);
  item_rest : A
}.
Arguments src {A B} i.
Arguments item_rest {A B} i.

Section Runtime.
Variable URL_parse : string -> option URL.

Definition batchConvertUrls {A B : Type} (items : list (Item A B)) (config : ProxyConfig)
  : list (Item A B) :=
  map (fun item =>
         match src item with
         | Some s =>
             if JS.truthy (rawSrc s) then
               let converted := convertToProxyUrl URL_parse (JS.orElse (rawSrc s) "") config in
               {| src := Some {| rawSrc := rawSrc s;
                                 (* proxyUrl || undefined *)
                                 proxyUrl := if JS.truthy converted then converted else None;
                                 src_rest := src_rest s |};
                  item_rest := item_rest item |}
             else item
         | None => item
         end)
      items.

(** ** buildCacheKey *)

(** [Buffer.from(s)]: the UTF-8 bytes of a string of code units below 256. *)
Fixpoint utf8 (s : string) : list Z :=
  match s with
  | EmptyString => []
  | String c r =>
      let n := JS.code c in
      if n <? 128 then n :: utf8 r
      else (192 + n / 64) :: (128 + n mod 64) :: utf8 r
  end.

Definition base64Alphabet : string :=
  "ABCDEFGHIJKLMNOPQRSTUVWXYZabcdefghijklmnopqrstuvwxyz0123456789+/".

Definition base64Char (i : Z) : ascii :=
  match String.get (Z.to_nat i) base64Alphabet with
  | Some c => c
  | None => "="%char
  end.

(** [buffer.toString('base64')]: three bytes give four characters; one
    or two bytes left over are padded with [=]. *)
Fixpoint base64 (bytes : list Z) : string :=
  match bytes with
  | a :: b :: c :: rest =>
      String (base64Char (a / 4))
        (String (base64Char ((a mod 4) * 16 + b / 16))
           (String (base64Char ((b mod 16) * 4 + c / 64))
              (String (base64Char (c mod 64)) (base64 rest))))
  | [a; b] =>
      String (base64Char (a / 4))
        (String (base64Char ((a mod 4) * 16 + b / 16))
           (String (base64Char ((b mod 16) * 4)) "="))
  | [a] =>
      String (base64Char (a / 4))
        (String (base64Char ((a mod 4) * 16)) "==")
  | [] => EmptyString
  end.

(** [buildCacheKey(url)], [now] being what [Date.now()] reads. *)
Definition buildCacheKey (now : Z) (url : string) : string :=
  match URL_parse url with
  | Some urlObj => "img_" ++ String.substring 0 32 (base64 (utf8 (pathname urlObj)))
  | None => "img_" ++ WallpaperUtils.showZ now                 (* catch *)
  end.

(** ** buildOptimizedUrl *)

Inductive Format : Type := webp | jpeg | png.

Definition formatName (f : Format) : string :=
  match f with webp => "webp" | jpeg => "jpeg" | png => "png" end.

(** [ImageOptimization], the numbers being integers. *)
Record ImageOptimization : Type := {
  width : option Z;
  height : option Z;
  quality : option Z;
  format : option Format
}.

(** [if (n)] for [n : number | undefined]. *)
Definition truthyNumber (n : option Z) : bool :=
  match n with
  | Some z => negb (z =? 0)
  | None => false
  end.

(** [if (n) params.set(key, n.toString())] *)
Definition setNumber (key : string) (n : option Z) (params : list (string * string))
  : list (string * string) :=
  match n with
  | Some z => if negb (z =? 0) then (params ++ [(key, WallpaperUtils.showZ z)])%list else params
  | None => params
  end.

(** [params.toString()] for values made of digits, [-] and letters, which
    the serializer leaves as they are. *)
Fixpoint queryString (params : list (string * string)) : string :=
  match params with
  | [] => EmptyString
  | [(k, v)] => k ++ "=" ++ v
  | (k, v) :: rest => k ++ "=" ++ v ++ "&" ++ queryString rest
  end.

Definition buildOptimizedUrl (originalUrl : string) (optimization : ImageOptimization)
           (config : ProxyConfig) : string :=
  match convertToProxyUrl URL_parse originalUrl config with
  | Some (String c r) =>
      let proxyUrl' := String c r in
      let params := setNumber "w" (width optimization) [] in
      let params := setNumber "h" (height optimization) params in
      let params := setNumber "q" (quality optimization) params in
      let params :=
        match format optimization with
        | Some f => (params ++ [("f", formatName f)])%list
        | None => params
        end in
      let query := queryString params in
      match query with
      | EmptyString => proxyUrl'
      | _ => proxyUrl' ++ "?" ++ query
      end
  | _ => originalUrl                                         (* !proxyUrl *)
  end.

End Runtime.

End ProxyUrls.

(* ===================================================================== *)
(** * Vocabulary of the properties *)
(* ===================================================================== *)

Module Stats.
Import ProxyUtils.

(** One use of the statistics store by a client of the module. *)
Inductive Call : Type :=
| Update (now : Z) (success : bool) (responseTime : Z) (fromCache : bool)
| Reset (now : Z).

Definition apply (c : Call) (s : ProxyStats) : ProxyStats :=
  match c with
  | Update now success responseTime fromCache =>
      updateProxyStats now success responseTime fromCache s
  | Reset now => resetProxyStats now s
  end.

(** The store after a sequence of calls, oldest first. *)
Definition after (calls : list Call) (s : ProxyStats) : ProxyStats :=
  fold_left (fun s c => apply c s) calls s.

(** A cache hit is only ever reported for a successful request. *)
Definition hitImpliesSuccess (c : Call) : bool :=
  match c with
  | Update _ success _ fromCache => implb fromCache success
  | Reset _ => true
  end.

(** The invariants of the counters. *)
Definition balanced (s : ProxyStats) : Prop :=
  successfulRequests s + failedRequests s = totalRequests s
  /\ 0 <= cacheHits s <= totalRequests s.

Definition hitsWithinSuccesses (s : ProxyStats) : Prop :=
  cacheHits s <= successfulRequests s.

End Stats.

Module Fixtures.
Import WallpaperUtils.

(** A catalogue entry with the given identifier and source. *)
Definition item (id source' : string) : WallpaperItem :=
  {| src_rawSrc := "https://infinitypro-img.infinitynewtab.com/wallpaper/" ++ id ++ ".jpg";
     colors := []; rate := 0%Q; like := 0%Q; _id := id; imgId := id;
     dimensions := "1920x1080"; source := source' |}.

(** [n] entries numbered from 0, all from one source. *)
Definition entries (n : nat) : list WallpaperItem :=
  map (fun i => item (showZ (Z.of_nat i)) "Unsplash") (seq 0 n).

(** The outside world at the instant [1000]: the catalogue endpoint
    answers [200] with [l], the Bing feed answers [200] with [images]. *)
Definition serving (l : list WallpaperItem) (images : list BingWallpaperItem) : Env :=
  {| now := 1000; isoDate := "2024-01-01T00:00:00.000Z";
     catalog := HttpResponse 200 (Some l);
     bingFeed := HttpResponse 200 (Some (Some images)) |}.

(** The store the entries end up in. *)
Definition cached (l : list WallpaperItem) : Store :=
  {| cachedData := Some l; lastCacheTime := 1000;
     cachedBingData := None; lastBingCacheTime := 0 |}.

End Fixtures.

Module Paging.

(** The first character of [s] is a decimal digit. *)
Definition startsWithDigit (s : string) : bool :=
  match s with
  | String c _ => JS.isDigit c
  | EmptyString => false
  end.

(** The sub-list of [l] at positions [from, from + size). *)
Definition window {A : Type} (l : list A) (from size : Z) : list A :=
  firstn (Z.to_nat size) (skipn (Z.to_nat from) l).

End Paging.

Module Order.

(** The order of [sort()] on strings: code unit by code unit. *)
Definition le (a b : string) : Prop := String.leb a b = true.
Definition lt (a b : string) : Prop := String.ltb a b = true.

End Order.

Module Text.

(** Every character of [s] satisfies [P]. *)
Fixpoint allChars (P : ascii -> bool) (s : string) : bool :=
  match s with
  | EmptyString => true
  | String c r => P c && allChars P r
  end.

(** [s] ends in [ext], upper and lower case taken as the same. *)
Definition endsWithIgnoringCase (s ext : string) : Prop :=
  exists pre suf : string,
    s = pre ++ suf /\ JS.toLowerCase suf = JS.toLowerCase ext.

Definition noLineTerminator (s : string) : bool :=
  allChars (fun c => negb (JS.isLineTerminator c)) s.


End Text.

Module PlainUrl.
Import ProxyUtils.

(** A reader of plain URLs [scheme://host/path], used to run the
    functions on examples.  On a lower-case URL without port,
    credentials, query, fragment, dot segments or characters that the URL
    parser escapes it returns the members the WHATWG parser returns. *)
Definition read (s : string) : option URL :=
  match JS.indexOf s "://" with
  | None => None
  | Some i =>
      let rest := JS.substringFrom (i + 3) s in
      match JS.indexOf rest "/" with
      | Some (S j) =>
          Some {| protocol := String.substring 0 i s ++ ":";
                  hostname := String.substring 0 (S j) rest;
                  pathname := JS.substringFrom (S j) rest |}
      | _ => None
      end
  end.

(** An engine that knows no pattern: the functions are run on the
    patterns the model reads itself. *)
Definition noEngine (source s : string) : Eff.result (option string) :=
  Eff.Throw (Eff.MkError "Invalid regular expression").

End PlainUrl.

Module ProxyRun.
Import FindaphotoProxy.

(** The answer of the handler's [catch] block. *)
Definition caughtAnswer (resp : Response) : Prop :=
  exists m : string,
    resp = JsonResponse [("error", JString "Internal server error");
                         ("message", JString m)] 500.

(** An origin that answers every request with [r]. *)
Definition answering (r : OriginResponse) : Env :=
  {| clock := fun n => 1000 + 10 * Z.of_nat n;
     fetch := fun _ _ => Some r |}.

(** An origin that cannot be reached. *)
Definition unreachable : Env :=
  {| clock := fun n => 1000 + 10 * Z.of_nat n;
     fetch := fun _ _ => None |}.

Definition originAnswer (status' : Z) (body' : option (list Byte.byte)) : OriginResponse :=
  {| status := status'; statusText := "";
     content_type := Some "image/jpeg"; content_length := None;
     last_modified := None; etag := Some "abc";
     body := body' |}.

Definition get (path : string) : Request :=
  {| param_star := None; req_path := "/api/findaphoto/" ++ path;
     if_none_match := None; if_modified_since := None |}.

Definition freshWorld : World :=
  {| proxyStats := ProxyUtils.initialStats 0; reads := 0; updates := [] |}.

(** [headers.get(name)]: header names are compared without regard to
    case. *)
Fixpoint header (name : string) (h : Headers) : option string :=
  match h with
  | [] => None
  | (n, v) :: r =>
      if (JS.toLowerCase n =? JS.toLowerCase name)%string then Some v else header name r
  end.

(** The value [headers.set] stores for an optional header of the origin:
    none when the origin sent none or an empty one. *)
Definition passedThrough (value : option string) : option string :=
  if JS.truthy value then option_map normalizeValue value else None.

(** The HTTP status of an answer. *)
Definition statusOf (resp : Response) : Z :=
  match resp with
  | JsonResponse _ status' => status'
  | RawResponse _ status' _ => status'
  end.

(** The world after the handler has served the requests in turn, each
    under its own outside conditions. *)
Fixpoint serve (URL_parse : string -> option ProxyUtils.URL)
         (visits : list (Env * Request)) (w : World) : World :=
  match visits with
  | [] => w
  | (env, req) :: rest => serve URL_parse rest (snd (handler URL_parse env req w))
  end.

End ProxyRun.

Module Catalogue.
Import Eff WallpaperUtils.

(** What the catalogue endpoint answers is of no use: the request fails,
    the status is not 2xx, or the body is not JSON. *)
Definition unusable {A : Type} (r : FetchResult A) : Prop :=
  match r with
  | NetworkError => True
  | HttpResponse status json => ok status = false \/ json = None
  end.

(** The cache is of no use at the instant [now]: empty, or too old. *)
Definition stale (now : Z) (st : Store) : Prop :=
  cachedData st = None \/ CACHE_DURATION <= now - lastCacheTime st.

Definition staleBing (now : Z) (st : Store) : Prop :=
  cachedBingData st = None \/ BING_CACHE_DURATION <= now - lastBingCacheTime st.

(** The list of a [getWallpaperList] answer. *)
Definition listOf (r : result WallpaperListResponse * Store) : list WallpaperItem :=
  match fst r with
  | Ok x => data_list (data x)
  | Throw _ => []
  end.

(** The answer of the [catch] block of [getBingWallpaperList]. *)
Definition bingFailure (date : string) : BingWallpaperResponse :=
  {| bing_code := 500;
     bing_data := {| bing_url := ""; bing_list := []; bing_total := 0; bing_date := date |};
     bing_message := "Internal server error" |}.

End Catalogue.

Module Segments.

(** [f] applied to the last element of a list. *)
Fixpoint mapLast {A : Type} (f : A -> A) (l : list A) : list A :=
  match l with
  | [] => []
  | [x] => [f x]
  | x :: r => x :: mapLast f r
  end.

(** [s] does not hold the character [sep]. *)
Definition without (sep : ascii) (s : string) : bool :=
  Text.allChars (fun c => negb (Ascii.eqb c sep)) s.

End Segments.

Module Timing.





End Timing.

(* ===================================================================== *)
(** * The statistics store *)
(* ===================================================================== *)

Module StatsFacts.
Import ProxyUtils Stats.

Lemma balanced_initial now : balanced (initialStats now).
Proof. unfold balanced; simpl; lia. Qed.

Lemma balanced_apply c s : balanced s -> balanced (apply c s).
Proof.
  intros [Hsum Hhits]. destruct c as [now success rt fromCache | now].
  - unfold balanced; simpl. destruct success, fromCache; lia.
  - apply balanced_initial.
Qed.

Lemma balanced_after calls : forall s, balanced s -> balanced (after calls s).
Proof.
  induction calls as [| c calls IH]; intros s Hs; simpl.
  - exact Hs.
  - apply IH, balanced_apply, Hs.
Qed.

(** The counters count: after [n] updates and no reset the total is [n],
    so every counter stays far below 2^53 in any run that can happen. *)
Lemma total_counts_updates calls s :
  Forall (fun c => match c with Update _ _ _ _ => True | Reset _ => False end) calls ->
  totalRequests (after calls s) = totalRequests s + Z.of_nat (List.length calls).
Proof.
  revert s. induction calls as [| c calls IH]; intros s Hall; simpl.
  - lia.
  - inversion Hall as [| ? ? Hc Hrest]; subst. destruct c; [| contradiction].
    unfold after in IH. rewrite (IH _ Hrest). simpl. lia.
Qed.

Lemma hitsWithinSuccesses_after calls :
  forall s, hitsWithinSuccesses s ->
            forallb hitImpliesSuccess calls = true ->
            hitsWithinSuccesses (after calls s).
Proof.
  induction calls as [| c calls IH]; intros s Hs Hall; simpl.
  - exact Hs.
  - simpl in Hall. apply andb_true_iff in Hall as [Hc Hrest].
    apply IH; [| exact Hrest].
    destruct c as [now success rt fromCache | now]; unfold hitsWithinSuccesses in *; simpl.
    + destruct success, fromCache; simpl in Hc; try discriminate; lia.
    + lia.
Qed.

(** C3: after any finite sequence of [updateProxyStats] calls (and resets)
    from the initial state, [successfulRequests + failedRequests] equals
    [totalRequests] and [cacheHits] is at most [totalRequests]. *)
Theorem stats_totals_invariant :
  forall (t0 : Z) (calls : list Call),
    let s := after calls (initialStats t0) in
    successfulRequests s + failedRequests s = totalRequests s
    /\ cacheHits s <= totalRequests s.
Proof.
  intros t0 calls s.
  destruct (balanced_after calls (initialStats t0) (balanced_initial t0)) as [Hsum [_ Hhits]].
  split; assumption.
Qed.

(** C4, as stated, fails: one call [updateProxyStats(false, 0, true)] from
    the initial state leaves [cacheHits = 1] above [successfulRequests = 0]. *)
Lemma stats_hits_exceed_successes :
  ~ (forall (t0 : Z) (calls : list Call),
        cacheHits (after calls (initialStats t0))
        <= successfulRequests (after calls (initialStats t0))).
Proof.
  intros H. specialize (H 0 [Update 0 false 0 true]). simpl in H. lia.
Qed.

(** C4, amended: when every call that reports a cache hit also reports a
    success, as every call of the proxy handler does, [cacheHits] is at
    most [successfulRequests] in every reachable state. *)
Theorem stats_hits_within_successes :
  forall (t0 : Z) (calls : list Call),
    forallb hitImpliesSuccess calls = true ->
    cacheHits (after calls (initialStats t0))
    <= successfulRequests (after calls (initialStats t0)).
Proof.
  intros t0 calls Hall.
  apply (hitsWithinSuccesses_after calls (initialStats t0)); [| exact Hall].
  unfold hitsWithinSuccesses; simpl; lia.
Qed.

Lemma stats_hits_within_successes_witness :
  forallb hitImpliesSuccess
          [Update 10 true 5 true; Update 20 false 7 false; Update 30 true 9 false] = true
  /\ cacheHits (after [Update 10 true 5 true; Update 20 false 7 false; Update 30 true 9 false]
                      (initialStats 0))
     <= successfulRequests
          (after [Update 10 true 5 true; Update 20 false 7 false; Update 30 true 9 false]
                 (initialStats 0)).
Proof.
  split; [reflexivity |].
  apply (stats_hits_within_successes 0
           [Update 10 true 5 true; Update 20 false 7 false; Update 30 true 9 false]).
  reflexivity.
Defined.

End StatsFacts.

(* ===================================================================== *)
(** * Arithmetic and lists behind the pagination *)
(* ===================================================================== *)

Module PagingFacts.
Import JS.

Lemma ceil_div_bounds (total pageSize : Z) :
  0 < pageSize ->
  exists tp, ceil_div total (Num pageSize) = Num tp
             /\ (tp - 1) * pageSize < total <= tp * pageSize.
Proof.
  intros Hps. unfold ceil_div.
  destruct (Z.eqb_spec pageSize 0) as [E | _]; [lia |].
  exists (- (- total / pageSize)). split; [reflexivity |].
  pose proof (Z.div_mod (- total) pageSize ltac:(lia)) as Hdm.
  pose proof (Z.mod_pos_bound (- total) pageSize Hps) as Hr.
  nia.
Qed.

Lemma ceil_div_unique (total pageSize a b : Z) :
  0 < pageSize ->
  (a - 1) * pageSize < total <= a * pageSize ->
  (b - 1) * pageSize < total <= b * pageSize ->
  a = b.
Proof. intros; nia. Qed.

(** [slice] between two indices inside [0, +oo) is the plain sub-list,
    also when the indices lie beyond the end of the array. *)
Lemma slice_window {A : Type} (a : list A) (start size : Z) :
  0 <= start -> 0 <= size ->
  slice a (Num start) (Num (start + size))
  = firstn (Z.to_nat size) (skipn (Z.to_nat start) a).
Proof.
  intros Hs Hz. unfold slice, relativeIndex.
  set (len := Z.of_nat (List.length a)).
  assert (Hlen : 0 <= len) by (unfold len; lia).
  destruct (Z.ltb_spec start 0) as [? | _]; [lia |].
  destruct (Z.ltb_spec (start + size) 0) as [? | _]; [lia |].
  destruct (Z_lt_le_dec start len) as [Hin | Hout].
  - rewrite (Z.min_l start len) by lia.
    destruct (Z_le_gt_dec (start + size) len) as [Hfit | Hcut].
    + rewrite (Z.min_l (start + size) len) by lia.
      f_equal. f_equal. lia.
    + rewrite (Z.min_r (start + size) len) by lia.
      rewrite !firstn_all2; [reflexivity | |]; rewrite length_skipn; unfold len in *; lia.
  - rewrite (Z.min_r start len) by lia.
    rewrite (Z.min_r (start + size) len) by lia.
    rewrite Z.sub_diag. simpl.
    rewrite (skipn_all2 a) by (unfold len in *; lia).
    now rewrite firstn_nil.
Qed.

Lemma window_length {A : Type} (a : list A) (start size : nat) :
  List.length (firstn size (skipn start a))
  = Nat.min size (List.length a - start).
Proof. now rewrite length_firstn, length_skipn. Qed.

End PagingFacts.

(* ===================================================================== *)
(** * parseInt *)
(* ===================================================================== *)

Module ParseIntFacts.
Import JS Paging.

Lemma trimStart_app (pre rest : string) :
  trimStart pre <> "" -> trimStart (pre ++ rest) = trimStart pre ++ rest.
Proof.
  induction pre as [| c pre IH]; simpl; intros H.
  - congruence.
  - destruct (isWhiteSpace c); [apply IH, H | reflexivity].
Qed.

Lemma readDigits_app (body rest : string) :
  startsWithDigit rest = false ->
  forall acc seen v,
    readDigits acc seen body = Some v ->
    readDigits acc seen (body ++ rest) = Some v.
Proof.
  intros Hrest. induction body as [| c body IH]; simpl; intros acc seen v H.
  - destruct seen; [| discriminate].
    destruct rest as [| d rest]; simpl in *; [exact H |].
    now rewrite Hrest.
  - destruct (isDigit c); [apply IH, H | exact H].
Qed.

(** Characters after the digits do not change what [parseInt] reads. *)
Lemma parseInt_app (pre rest : string) (p : Z) :
  parseInt pre = Num p ->
  startsWithDigit rest = false ->
  parseInt (pre ++ rest) = Num p.
Proof.
  unfold parseInt. intros H Hrest.
  destruct (trimStart pre) as [| c t] eqn:Et.
  - simpl in H. discriminate.
  - rewrite trimStart_app by (rewrite Et; discriminate).
    rewrite Et. simpl.
    destruct (c =? "-")%char; [| destruct (c =? "+")%char].
    + destruct (readDigits 0 false t) as [v |] eqn:Ev; [| discriminate].
      now rewrite (readDigits_app t rest Hrest _ _ _ Ev).
    + destruct (readDigits 0 false t) as [v |] eqn:Ev; [| discriminate].
      now rewrite (readDigits_app t rest Hrest _ _ _ Ev).
    + destruct (readDigits 0 false (String c t)) as [v |] eqn:Ev; [| discriminate].
      change (String c (t ++ rest)) with (String c t ++ rest).
      now rewrite (readDigits_app (String c t) rest Hrest _ _ _ Ev).
Qed.

Lemma parseInt_empty : parseInt "" = NaN.
Proof. reflexivity. Qed.

Lemma parseInt_Num_nonempty (s : string) (p : Z) : parseInt s = Num p -> s <> "".
Proof. intros H E. subst s. discriminate. Qed.

Lemma orElse_nonempty (s d : string) : s <> "" -> orElse (Some s) d = s.
Proof. destruct s; [congruence | reflexivity]. Qed.

End ParseIntFacts.

(* ===================================================================== *)
(** * getWallpaperList *)
(* ===================================================================== *)

Module ListFacts.
Import Eff WallpaperUtils Paging Fixtures.

(** Once the catalogue is loaded, the answer is a function of the
    arguments alone. *)
Lemma getWallpaperList_loaded env st st' allData page' source' pageSize :
  loadWallpaperData env st = (Ok allData, st') ->
  getWallpaperList page' source' pageSize env st
  = (Ok (let size := match pageSize with Some n => n | None => JS.Num 20 end in
         let filteredData := filterBySource allData source' in
         let currentPage := JS.parseInt (JS.orElse page' "1") in
         if JS.isNaN currentPage || JS.lt currentPage (JS.Num 1)
         then emptyPage 400 "Invalid page number"
         else
           let startIndex := JS.mul (JS.sub currentPage (JS.Num 1)) size in
           {| code := 200;
              data := {| data_list := JS.slice filteredData startIndex (JS.add startIndex size);
                         total := Z.of_nat (List.length filteredData);
                         page := currentPage;
                         totalPage := JS.ceil_div (Z.of_nat (List.length filteredData)) size |};
              message := "Success" |}),
     st').
Proof.
  intros Hload. unfold getWallpaperList, tryCatch, bind. rewrite Hload. cbv zeta.
  destruct (JS.isNaN _ || JS.lt _ _); reflexivity.
Qed.

(** [getWallpaperList] returns; nothing is thrown to the caller. *)
Lemma getWallpaperList_returns env st page' source' pageSize :
  exists r st', getWallpaperList page' source' pageSize env st = (Ok r, st').
Proof.
  destruct (loadWallpaperData env st) as [[allData | e] st'] eqn:Hload.
  - rewrite (getWallpaperList_loaded _ _ _ _ _ _ _ Hload). eauto.
  - unfold getWallpaperList, tryCatch, bind. rewrite Hload. unfold ret. eauto.
Qed.

(** C1: with the catalogue loaded, a page size above 0 and a page string
    that parses to [p >= 1], the answer has code 200, [total] the length of
    the filtered list, [totalPage] the ceiling of [total / pageSize] and
    [list] the positions [(p-1)*pageSize, p*pageSize) of the filtered
    list; with 45 filtered entries and page size 20 there are 3 pages,
    page 1 holds 20 entries and page 3 holds 5; a page beyond the last
    one, such as page 4, is answered with code 200 and an empty list. *)
Theorem getWallpaperList_paginates :
  forall (env : Env) (st st' : Store) (allData : list WallpaperItem)
         (source' : option string) (pageSize p : Z) (page' : string),
    loadWallpaperData env st = (Ok allData, st') ->
    0 < pageSize ->
    JS.parseInt page' = JS.Num p ->
    1 <= p ->
    let filtered := filterBySource allData source' in
    let count := Z.of_nat (List.length filtered) in
    let shown := window filtered ((p - 1) * pageSize) pageSize in
    exists tp : Z,
      (tp - 1) * pageSize < count <= tp * pageSize
      /\ getWallpaperList (Some page') source' (Some (JS.Num pageSize)) env st
         = (Ok {| code := 200;
                  data := {| data_list := shown; total := count;
                             page := JS.Num p; totalPage := JS.Num tp |};
                  message := "Success" |},
            st')
      /\ (tp < p -> shown = [])
      /\ (count = 45 -> pageSize = 20 ->
          tp = 3
          /\ (p = 1 -> List.length shown = 20%nat)
          /\ (p = 3 -> List.length shown = 5%nat)
          /\ (p = 4 -> shown = [])).
Proof.
  intros env st st' allData source' pageSize p page' Hload Hsize Hparse Hp filtered count shown.
  destruct (PagingFacts.ceil_div_bounds count pageSize Hsize) as [tp [Hceil Hbounds]].
  assert (Hbeyond : tp < p -> shown = []).
  { intros Hlate. apply length_zero_iff_nil. unfold shown, window.
    rewrite PagingFacts.window_length. unfold count in Hbounds. nia. }
  exists tp. split; [exact Hbounds |]. split; [| split; [exact Hbeyond |]].
  - rewrite (getWallpaperList_loaded _ _ _ _ _ _ _ Hload). cbv zeta.
    rewrite (ParseIntFacts.orElse_nonempty page' "1")
      by (eapply ParseIntFacts.parseInt_Num_nonempty; eassumption).
    rewrite Hparse. simpl JS.isNaN. simpl JS.lt.
    destruct (Z.ltb_spec p 1) as [? | _]; [lia |]. simpl orb. cbv iota.
    fold filtered. fold count. rewrite Hceil. simpl JS.sub. simpl JS.mul. simpl JS.add.
    rewrite PagingFacts.slice_window by nia.
    reflexivity.
  - intros Hcount Hsize20. subst pageSize.
    assert (Hlen : List.length filtered = 45%nat) by (unfold count in Hcount; lia).
    assert (Htp : tp = 3) by lia.
    split; [exact Htp |]. unfold shown, window. repeat split.
    + intros ->. rewrite PagingFacts.window_length, Hlen. reflexivity.
    + intros ->. rewrite PagingFacts.window_length, Hlen. reflexivity.
    + intros ->. apply Hbeyond. lia.
Qed.

Lemma getWallpaperList_paginates_witness :
  loadWallpaperData (serving (entries 45) []) initialStore
  = (Ok (entries 45), cached (entries 45))
  /\ 0 < 20
  /\ JS.parseInt "3" = JS.Num 3
  /\ 1 <= 3
  /\ exists tp : Z,
      (tp - 1) * 20 < Z.of_nat (List.length (filterBySource (entries 45) None)) <= tp * 20
      /\ getWallpaperList (Some "3") None (Some (JS.Num 20)) (serving (entries 45) []) initialStore
         = (Ok {| code := 200;
                  data := {| data_list := window (filterBySource (entries 45) None) ((3 - 1) * 20) 20;
                             total := Z.of_nat (List.length (filterBySource (entries 45) None));
                             page := JS.Num 3; totalPage := JS.Num tp |};
                  message := "Success" |},
            cached (entries 45))
      /\ (tp < 3 -> window (filterBySource (entries 45) None) ((3 - 1) * 20) 20 = [])
      /\ (Z.of_nat (List.length (filterBySource (entries 45) None)) = 45 -> 20 = 20 ->
          tp = 3
          /\ (3 = 1 -> List.length (window (filterBySource (entries 45) None) ((3 - 1) * 20) 20) = 20%nat)
          /\ (3 = 3 -> List.length (window (filterBySource (entries 45) None) ((3 - 1) * 20) 20) = 5%nat)
          /\ (3 = 4 -> window (filterBySource (entries 45) None) ((3 - 1) * 20) 20 = [])).
Proof.
  split; [reflexivity |]. split; [lia |]. split; [reflexivity |]. split; [lia |].
  apply (getWallpaperList_paginates (serving (entries 45) []) initialStore
           (cached (entries 45)) (entries 45) None 20 3 "3");
    [reflexivity | lia | reflexivity | lia].
Defined.

(** C6, as stated, fails on the empty page string: [parseInt("")] is
    [NaN], yet [page || '1'] replaces the empty string by the default and
    the call answers page 1 with code 200. *)
Lemma getWallpaperList_empty_page_accepted :
  ~ (forall (env : Env) (st st' : Store) (allData : list WallpaperItem)
            (source' : option string) (pageSize : option JS.number) (page' : string),
        loadWallpaperData env st = (Ok allData, st') ->
        (JS.parseInt page' = JS.NaN \/ exists p, JS.parseInt page' = JS.Num p /\ p < 1) ->
        getWallpaperList (Some page') source' pageSize env st
        = (Ok {| code := 400;
                 data := {| data_list := []; total := 0;
                            page := JS.Num 1; totalPage := JS.Num 0 |};
                 message := "Invalid page number" |},
           st')).
Proof.
  intros H.
  specialize (H (serving (entries 3) []) initialStore (cached (entries 3)) (entries 3)
                None (Some (JS.Num 20)) "" eq_refl (or_introl eq_refl)).
  vm_compute in H. discriminate H.
Qed.

(** C6, amended: with the catalogue loaded, a non-empty page string that
    does not parse as an integer, or parses to an integer below 1, is
    answered with code 400, message "Invalid page number" and the empty
    result [list = [], total = 0, page = 1, totalPage = 0]; the empty page
    string is read as the absent one, that is as the default "1". *)
Theorem getWallpaperList_rejects_bad_page :
  forall (env : Env) (st st' : Store) (allData : list WallpaperItem)
         (source' : option string) (pageSize : option JS.number) (page' : string),
    loadWallpaperData env st = (Ok allData, st') ->
    (page' <> "" ->
     (JS.parseInt page' = JS.NaN \/ exists p, JS.parseInt page' = JS.Num p /\ p < 1) ->
     getWallpaperList (Some page') source' pageSize env st
     = (Ok {| code := 400;
              data := {| data_list := []; total := 0;
                         page := JS.Num 1; totalPage := JS.Num 0 |};
              message := "Invalid page number" |},
        st'))
    /\ getWallpaperList (Some "") source' pageSize env st
       = getWallpaperList None source' pageSize env st
    /\ getWallpaperList None source' pageSize env st
       = getWallpaperList (Some "1") source' pageSize env st.
Proof.
  intros env st st' allData source' pageSize page' Hload. split; [| split].
  - intros Hne Hbad.
    rewrite (getWallpaperList_loaded _ _ _ _ _ _ _ Hload). cbv zeta.
    rewrite (ParseIntFacts.orElse_nonempty page' "1" Hne).
    destruct Hbad as [Hnan | [p [Hp Hlow]]].
    + rewrite Hnan. reflexivity.
    + rewrite Hp. simpl JS.isNaN. simpl JS.lt.
      destruct (Z.ltb_spec p 1) as [_ | ?]; [reflexivity | lia].
  - rewrite !(getWallpaperList_loaded _ _ _ _ _ _ _ Hload). reflexivity.
  - rewrite !(getWallpaperList_loaded _ _ _ _ _ _ _ Hload). reflexivity.
Qed.

Lemma getWallpaperList_rejects_bad_page_witness :
  loadWallpaperData (serving (entries 45) []) initialStore
  = (Ok (entries 45), cached (entries 45))
  /\ "abc" <> ""
  /\ JS.parseInt "abc" = JS.NaN
  /\ getWallpaperList (Some "abc") None (Some (JS.Num 20)) (serving (entries 45) []) initialStore
     = (Ok {| code := 400;
              data := {| data_list := []; total := 0;
                         page := JS.Num 1; totalPage := JS.Num 0 |};
              message := "Invalid page number" |},
        cached (entries 45))
  /\ getWallpaperList (Some "") None (Some (JS.Num 20)) (serving (entries 45) []) initialStore
     = getWallpaperList None None (Some (JS.Num 20)) (serving (entries 45) []) initialStore.
Proof.
  assert (Hload : loadWallpaperData (serving (entries 45) []) initialStore
                  = (Ok (entries 45), cached (entries 45))) by reflexivity.
  assert (Hne : "abc" <> "") by discriminate.
  assert (Hnan : JS.parseInt "abc" = JS.NaN) by reflexivity.
  destruct (getWallpaperList_rejects_bad_page (serving (entries 45) []) initialStore
              (cached (entries 45)) (entries 45) None (Some (JS.Num 20)) "abc" Hload)
    as [Hbad [Hempty _]].
  exact (conj Hload (conj Hne (conj Hnan (conj (Hbad Hne (or_introl Hnan)) Hempty)))).
Defined.

(** C10: a page string made of a prefix that [parseInt] reads as [p >= 1]
    (in particular a run of digits) followed by text that does not start
    with a digit is accepted: the answer is the one for the prefix alone,
    with code 200 and page [p]. *)
Theorem getWallpaperList_ignores_trailing_text :
  forall (env : Env) (st st' : Store) (allData : list WallpaperItem)
         (source' : option string) (pageSize : option JS.number)
         (prefix rest : string) (p : Z),
    loadWallpaperData env st = (Ok allData, st') ->
    JS.parseInt prefix = JS.Num p ->
    1 <= p ->
    rest <> "" ->
    startsWithDigit rest = false ->
    getWallpaperList (Some (prefix ++ rest)) source' pageSize env st
    = getWallpaperList (Some prefix) source' pageSize env st
    /\ exists r : WallpaperListResponse,
        getWallpaperList (Some (prefix ++ rest)) source' pageSize env st = (Ok r, st')
        /\ code r = 200
        /\ page (data r) = JS.Num p.
Proof.
  intros env st st' allData source' pageSize prefix rest p Hload Hparse Hp Hrest Hnodigit.
  pose proof (ParseIntFacts.parseInt_app prefix rest p Hparse Hnodigit) as Hboth.
  assert (Hne : prefix <> "") by (eapply ParseIntFacts.parseInt_Num_nonempty; eassumption).
  assert (Hne' : (prefix ++ rest)%string <> "") by (destruct prefix; [congruence | discriminate]).
  rewrite !(getWallpaperList_loaded _ _ _ _ _ _ _ Hload). cbv zeta.
  rewrite !ParseIntFacts.orElse_nonempty by assumption.
  rewrite Hboth, Hparse. simpl JS.isNaN. simpl JS.lt.
  destruct (Z.ltb_spec p 1) as [? | _]; [lia |]. simpl orb. cbv iota.
  split; [reflexivity |]. eexists. split; [reflexivity |]. split; reflexivity.
Qed.

Lemma getWallpaperList_ignores_trailing_text_witness :
  loadWallpaperData (serving (entries 45) []) initialStore
  = (Ok (entries 45), cached (entries 45))
  /\ JS.parseInt "2" = JS.Num 2
  /\ 1 <= 2
  /\ "abc" <> ""
  /\ startsWithDigit "abc" = false
  /\ getWallpaperList (Some ("2" ++ "abc")) None (Some (JS.Num 20))
                      (serving (entries 45) []) initialStore
     = getWallpaperList (Some "2") None (Some (JS.Num 20))
                        (serving (entries 45) []) initialStore
  /\ exists r : WallpaperListResponse,
      getWallpaperList (Some ("2" ++ "abc")) None (Some (JS.Num 20))
                       (serving (entries 45) []) initialStore
      = (Ok r, cached (entries 45))
      /\ code r = 200
      /\ page (data r) = JS.Num 2.
Proof.
  split; [reflexivity |]. split; [reflexivity |]. split; [lia |].
  split; [discriminate |]. split; [reflexivity |].
  apply (getWallpaperList_ignores_trailing_text (serving (entries 45) []) initialStore
           (cached (entries 45)) (entries 45) None (Some (JS.Num 20)) "2" "abc" 2);
    [reflexivity | reflexivity | lia | discriminate | reflexivity].
Defined.

End ListFacts.

(* ===================================================================== *)
(** * Set and sort *)
(* ===================================================================== *)

Module SortFacts.
Import JS Order.

Lemma In_setAdd (seen : list string) (x y : string) :
  In y (setAdd seen x) <-> In y seen \/ y = x.
Proof.
  induction seen as [| z seen IH]; simpl.
  - intuition congruence.
  - destruct (String.eqb_spec x z) as [-> | Hne]; simpl.
    + intuition congruence.
    + rewrite IH. tauto.
Qed.

Lemma NoDup_setAdd (seen : list string) (x : string) :
  NoDup seen -> NoDup (setAdd seen x).
Proof.
  induction seen as [| z seen IH]; simpl; intros Hnd.
  - constructor; [intros [] | constructor].
  - destruct (String.eqb_spec x z) as [-> | Hne]; [exact Hnd |].
    inversion Hnd as [| ? ? Hz Hrest]; subst.
    constructor; [| apply IH, Hrest].
    rewrite In_setAdd. intros [Hin | Heq]; [contradiction | congruence].
Qed.

Lemma fold_setAdd (a : list string) :
  forall seen, NoDup seen ->
    NoDup (fold_left setAdd a seen)
    /\ (forall y, In y (fold_left setAdd a seen) <-> In y seen \/ In y a).
Proof.
  induction a as [| x a IH]; simpl; intros seen Hnd.
  - split; [exact Hnd | intros y; tauto].
  - destruct (IH (setAdd seen x) (NoDup_setAdd seen x Hnd)) as [Hnd' Hin].
    split; [exact Hnd' |].
    intros y. rewrite Hin, In_setAdd. intuition congruence.
Qed.

Lemma NoDup_uniqueInOrder (a : list string) : NoDup (uniqueInOrder a).
Proof. apply (fold_setAdd a []). constructor. Qed.

Lemma In_uniqueInOrder (a : list string) (y : string) :
  In y (uniqueInOrder a) <-> In y a.
Proof.
  unfold uniqueInOrder.
  destruct (fold_setAdd a [] (NoDup_nil _)) as [_ Hin].
  rewrite Hin. simpl. tauto.
Qed.

Lemma sortInsert_perm (x : string) (l : list string) :
  Permutation (sortInsert x l) (x :: l).
Proof.
  induction l as [| y l IH]; simpl.
  - apply Permutation_refl.
  - destruct (String.leb x y).
    + apply Permutation_refl.
    + eapply perm_trans; [apply perm_skip, IH | apply perm_swap].
Qed.

Lemma sort_perm (a : list string) : Permutation (sort a) a.
Proof.
  induction a as [| x a IH]; simpl.
  - apply perm_nil.
  - eapply perm_trans; [apply sortInsert_perm | apply perm_skip, IH].
Qed.

Lemma sortInsert_sorted (x : string) (l : list string) :
  Sorted le l -> Sorted le (sortInsert x l).
Proof.
  induction l as [| y l IH]; simpl; intros Hs.
  - repeat constructor.
  - destruct (String.leb x y) eqn:Hxy.
    + constructor; [exact Hs | constructor; exact Hxy].
    + inversion Hs as [| ? ? Hl Hhd]; subst.
      constructor; [apply IH, Hl |].
      assert (Hyx : le y x).
      { destruct (String.leb_total x y) as [H | H]; [congruence | exact H]. }
      destruct l as [| z l]; simpl.
      * constructor; exact Hyx.
      * destruct (String.leb x z); constructor; [exact Hyx |].
        inversion Hhd; assumption.
Qed.

Lemma sort_sorted (a : list string) : Sorted le (sort a).
Proof.
  induction a as [| x a IH]; simpl; [constructor | apply sortInsert_sorted, IH].
Qed.

Lemma compare_agree (a b : string) :
  String.compare a b = String_as_OT.compare a b.
Proof.
  reflexivity.
Qed.

Lemma lt_iff (a b : string) : lt a b <-> String_as_OT.lt a b.
Proof.
  unfold lt, String.ltb, String_as_OT.lt. rewrite compare_agree.
  destruct (String_as_OT.compare a b); split; congruence.
Qed.

Lemma lt_trans (a b c : string) : lt a b -> lt b c -> lt a c.
Proof.
  rewrite !lt_iff. apply StrictOrder_Transitive.
Qed.

Lemma le_neq_lt (a b : string) : le a b -> a <> b -> lt a b.
Proof.
  unfold le, lt, String.leb, String.ltb. intros Hle Hne.
  destruct (String.compare a b) eqn:Hc; try congruence.
  apply String.compare_eq_iff in Hc. contradiction.
Qed.

(** A sorted list without repetition is strictly ascending, pairwise. *)
Lemma sorted_nodup_strict (l : list string) :
  Sorted le l -> NoDup l -> StronglySorted lt l.
Proof.
  intros Hs Hnd. apply Sorted_StronglySorted; [exact lt_trans |].
  induction Hs as [| x l Hl IH Hhd]; [constructor |].
  inversion Hnd as [| ? ? Hx Hrest]; subst.
  constructor; [apply IH, Hrest |].
  destruct Hhd as [| y l Hxy]; constructor.
  apply le_neq_lt; [exact Hxy |].
  intros ->. apply Hx. now left.
Qed.

(** [[...new Set(a)].sort()] is strictly ascending and has the elements
    of [a]. *)
Lemma sort_unique_spec (a : list string) :
  StronglySorted lt (sort (uniqueInOrder a))
  /\ (forall s, In s (sort (uniqueInOrder a)) <-> In s a).
Proof.
  split.
  - apply sorted_nodup_strict; [apply sort_sorted |].
    eapply Permutation_NoDup; [apply Permutation_sym, sort_perm |].
    apply NoDup_uniqueInOrder.
  - intros s. rewrite <- (In_uniqueInOrder a s). split; intros H.
    + eapply Permutation_in; [apply sort_perm | exact H].
    + eapply Permutation_in; [apply Permutation_sym, sort_perm | exact H].
Qed.

End SortFacts.

(* ===================================================================== *)
(** * getAvailableSources and getBingWallpaperList *)
(* ===================================================================== *)

Module SourcesFacts.
Import Eff WallpaperUtils Fixtures.

Lemma getAvailableSources_unfold env st :
  getAvailableSources env st
  = match loadWallpaperData env st with
    | (Ok allData, st') => (Ok (JS.sort (JS.uniqueInOrder (map source allData))), st')
    | (Throw _, st') => (Ok [], st')
    end.
Proof.
  unfold getAvailableSources, tryCatch, bind.
  destruct (loadWallpaperData env st) as [[allData | e] st']; reflexivity.
Qed.

(** C8, as stated, fails on its own example: the spellings "Unsplash" and
    "unsplash" are distinct values and both are returned. *)
Lemma getAvailableSources_keeps_both_spellings :
  fst (getAvailableSources
         (serving [item "1" "Unsplash"; item "2" "unsplash"; item "3" "Pexels"] [])
         initialStore)
  <> Ok ["Pexels"; "Unsplash"].
Proof. vm_compute. discriminate. Qed.

(** C8, amended: [getAvailableSources] never throws; when the load fails
    it returns the empty array; otherwise it returns the [source] values
    of the catalogue, each once (two values that differ in case are two
    values), in strictly ascending code-unit order; on the catalogue with
    sources "Unsplash", "unsplash", "Pexels" it returns
    ["Pexels", "Unsplash", "unsplash"]. *)
Theorem getAvailableSources_sorted_distinct :
  forall (env : Env) (st : Store),
  exists (l : list string) (st' : Store),
    getAvailableSources env st = (Ok l, st')
    /\ (forall e st1, loadWallpaperData env st = (Throw e, st1) -> l = [])
    /\ (forall allData st1,
          loadWallpaperData env st = (Ok allData, st1) ->
          StronglySorted Order.lt l
          /\ (forall s, In s l <-> exists it, In it allData /\ source it = s)
          /\ (map source allData = ["Unsplash"; "unsplash"; "Pexels"] ->
              l = ["Pexels"; "Unsplash"; "unsplash"])).
Proof.
  intros env st. rewrite getAvailableSources_unfold.
  destruct (loadWallpaperData env st) as [[allData | e] st'] eqn:Hload.
  - exists (JS.sort (JS.uniqueInOrder (map source allData))), st'.
    split; [reflexivity |]. split; [intros e st1 H; discriminate H |].
    intros allData' st1 H. injection H as <- <-.
    destruct (SortFacts.sort_unique_spec (map source allData)) as [Hsorted Hin].
    split; [exact Hsorted |]. split.
    + intros s. rewrite Hin, in_map_iff. split; intros [it [H1 H2]]; exists it; tauto.
    + intros ->. reflexivity.
  - exists [], st'. split; [reflexivity |]. split; [reflexivity |].
    intros allData st1 H. discriminate H.
Qed.

(** The three sources of the example, in the order the call returns them. *)
Example getAvailableSources_runs :
  fst (getAvailableSources
         (serving [item "1" "Unsplash"; item "2" "unsplash"; item "3" "Pexels"] [])
         initialStore)
  = Ok ["Pexels"; "Unsplash"; "unsplash"].
Proof. reflexivity. Qed.

End SourcesFacts.

Module BingFacts.
Import Eff WallpaperUtils Fixtures.

Lemma getBingWallpaperList_unfold env st :
  getBingWallpaperList env st
  = match loadBingWallpaperData env st with
    | (Ok (b :: rest), st') =>
        (Ok {| bing_code := 200;
               bing_data := {| bing_url := "https://www.bing.com" ++ url b;
                               bing_list := b :: rest;
                               bing_total := Z.of_nat (List.length (b :: rest));
                               bing_date := isoDate env |};
               bing_message := "Success" |},
         st')
    | (_, st') =>
        (Ok {| bing_code := 500;
               bing_data := {| bing_url := ""; bing_list := []; bing_total := 0;
                               bing_date := isoDate env |};
               bing_message := "Internal server error" |},
         st')
    end.
Proof.
  unfold getBingWallpaperList, tryCatch, bind.
  destruct (loadBingWallpaperData env st) as [[[| b rest] | e] st']; reflexivity.
Qed.

(** C9, as stated, fails: with a feed that is fetched successfully and
    holds no entry the call returns, and what it returns is the code 500
    empty result, so that result is not reserved to fetch failures. *)
Lemma getBingWallpaperList_empty_feed_answers_500 :
  ~ (forall (env : Env) (st st' : Store) (r : BingWallpaperResponse),
        getBingWallpaperList env st = (Ok r, st') ->
        bing_code r = 500 ->
        exists e st1, loadBingWallpaperData env st = (Throw e, st1)).
Proof.
  intros H.
  destruct (H (serving [] []) initialStore _ _ eq_refl eq_refl) as [e [st1 Hload]].
  vm_compute in Hload. discriminate Hload.
Qed.

(** C9, amended: [getBingWallpaperList] never throws to its caller.  When
    the feed is loaded and holds no entry, reading [bingData[0].url]
    throws inside the [try] block and the [catch] block answers with the
    code 500 empty result, the same one as on a load failure; code 200 is
    answered exactly when the loaded feed holds at least one entry. *)
Theorem getBingWallpaperList_empty_feed :
  forall (env : Env) (st : Store),
  exists (r : BingWallpaperResponse) (st' : Store),
    getBingWallpaperList env st = (Ok r, st')
    /\ (forall st1, loadBingWallpaperData env st = (Ok [], st1) ->
          st' = st1
          /\ r = {| bing_code := 500;
                    bing_data := {| bing_url := ""; bing_list := []; bing_total := 0;
                                    bing_date := isoDate env |};
                    bing_message := "Internal server error" |})
    /\ (forall e st1, loadBingWallpaperData env st = (Throw e, st1) ->
          st' = st1
          /\ r = {| bing_code := 500;
                    bing_data := {| bing_url := ""; bing_list := []; bing_total := 0;
                                    bing_date := isoDate env |};
                    bing_message := "Internal server error" |})
    /\ (bing_code r = 200 <->
        exists b rest st1, loadBingWallpaperData env st = (Ok (b :: rest), st1)).
Proof.
  intros env st. rewrite getBingWallpaperList_unfold.
  destruct (loadBingWallpaperData env st) as [[[| b rest] | e] st'] eqn:Hload;
    eexists; exists st'; (split; [reflexivity |]).
  - split; [intros st1 H; injection H as <-; split; reflexivity |].
    split; [intros e st1 H; discriminate H |].
    simpl. split; [discriminate | intros [b [rest [st1 H]]]; discriminate H].
  - split; [intros st1 H; discriminate H |].
    split; [intros e st1 H; discriminate H |].
    simpl. split; [intros _; eauto | reflexivity].
  - split; [intros st1 H; discriminate H |].
    split; [intros e' st1 H; injection H as <- <-; split; reflexivity |].
    simpl. split; [discriminate | intros [b [rest [st1 H]]]; discriminate H].
Qed.

(** The empty feed, fetched without failure, at work. *)
Example getBingWallpaperList_empty_feed_run :
  loadBingWallpaperData (serving [] []) initialStore
  = (Ok [], {| cachedData := None; lastCacheTime := 0;
               cachedBingData := Some []; lastBingCacheTime := 1000 |})
  /\ fst (getBingWallpaperList (serving [] []) initialStore)
     = Ok {| bing_code := 500;
             bing_data := {| bing_url := ""; bing_list := []; bing_total := 0;
                             bing_date := "2024-01-01T00:00:00.000Z" |};
             bing_message := "Internal server error" |}.
Proof. split; reflexivity. Qed.

End BingFacts.

(* ===================================================================== *)
(** * Strings *)
(* ===================================================================== *)

Module StringFacts.
Import JS Text.

Lemma append_nil_r (s : string) : s ++ "" = s.
Proof. induction s as [| c s IH]; simpl; [reflexivity | now rewrite IH]. Qed.

Lemma append_assoc (a b c : string) : (a ++ b) ++ c = a ++ b ++ c.
Proof. induction a as [| x a IH]; simpl; [reflexivity | now rewrite IH]. Qed.

Lemma rev_append (a b : string) : rev (a ++ b) = rev b ++ rev a.
Proof.
  induction a as [| x a IH]; simpl.
  - now rewrite append_nil_r.
  - now rewrite IH, append_assoc.
Qed.

Lemma rev_involutive (s : string) : rev (rev s) = s.
Proof.
  induction s as [| c s IH]; simpl; [reflexivity |].
  now rewrite rev_append, IH.
Qed.

Lemma prefix_iff (p s : string) :
  String.prefix p s = true <-> exists r, s = p ++ r.
Proof.
  revert s. induction p as [| c p IH]; intros s.
  - destruct s; simpl; split; eauto.
  - destruct s as [| d s]; simpl.
    + split; [discriminate | intros [r H]; discriminate H].
    + destruct (ascii_dec c d) as [-> | Hne].
      * rewrite IH. split; intros [r H]; exists r; congruence.
      * split; [discriminate | intros [r H]; congruence].
Qed.

Lemma prefix_append (p r : string) : String.prefix p (p ++ r) = true.
Proof. apply prefix_iff. now exists r. Qed.

Lemma endsWith_iff (s p : string) :
  endsWith s p = true <-> exists pre, s = pre ++ p.
Proof.
  unfold endsWith. rewrite prefix_iff. split.
  - intros [r H]. exists (rev r).
    rewrite <- (rev_involutive s), H, rev_append, rev_involutive. reflexivity.
  - intros [pre ->]. exists (rev pre). apply rev_append.
Qed.

Lemma substringFrom_append (p r : string) :
  substringFrom (String.length p) (p ++ r) = r.
Proof.
  induction p as [| c p IH]; simpl; [now destruct r | exact IH].
Qed.

Lemma toLowerCase_append (a b : string) :
  toLowerCase (a ++ b) = toLowerCase a ++ toLowerCase b.
Proof. induction a as [| c a IH]; simpl; [reflexivity | now rewrite IH]. Qed.

Lemma toLowerCase_split (s x y : string) :
  toLowerCase s = x ++ y ->
  exists a b, s = a ++ b /\ toLowerCase a = x /\ toLowerCase b = y.
Proof.
  revert s. induction x as [| c x IH]; simpl; intros s H.
  - exists "", s. auto.
  - destruct s as [| d s]; simpl in H; [discriminate |].
    injection H as Hc Hs. destruct (IH s Hs) as [a [b [-> [Ha Hb]]]].
    exists (String d a), b. simpl. rewrite Ha, Hc. auto.
Qed.

(** [s.toLowerCase().endsWith(ext)] for a lower-case [ext] says that [s]
    ends in [ext] up to case. *)
Lemma endsWith_toLowerCase (s ext : string) :
  toLowerCase ext = ext ->
  endsWith (toLowerCase s) ext = true <-> endsWithIgnoringCase s ext.
Proof.
  intros Hext. rewrite endsWith_iff. unfold endsWithIgnoringCase. rewrite Hext. split.
  - intros [pre H]. destruct (toLowerCase_split s pre ext H) as [a [b [-> [_ Hb]]]].
    now exists a, b.
  - intros [pre [suf [-> H]]]. exists (toLowerCase pre).
    now rewrite toLowerCase_append, H.
Qed.

End StringFacts.

(* ===================================================================== *)
(** * validateImageUrl *)
(* ===================================================================== *)

Module ValidateFacts.
Import ProxyUtils Text.

Lemma protocol_check (p : string) :
  existsb (String.eqb p) ["http:"; "https:"] = true <-> p = "http:" \/ p = "https:".
Proof.
  simpl. rewrite !orb_true_iff, !String.eqb_eq. intuition discriminate.
Qed.

Lemma extension_check (path : string) :
  existsb (fun ext => JS.endsWith (JS.toLowerCase path) ext) validExtensions = true
  <-> exists ext, In ext [".jpg"; ".jpeg"; ".png"; ".webp"; ".gif"; ".bmp"]
                  /\ endsWithIgnoringCase path ext.
Proof.
  rewrite existsb_exists. unfold validExtensions.
  split; intros [ext [Hin H]]; exists ext; (split; [exact Hin |]).
  - apply StringFacts.endsWith_toLowerCase; [| exact H].
    simpl in Hin. decompose [or] Hin; subst; try reflexivity; contradiction.
  - apply StringFacts.endsWith_toLowerCase; [| exact H].
    simpl in Hin. decompose [or] Hin; subst; try reflexivity; contradiction.
Qed.

Section WithRuntime.
Variable URL_parse : string -> option URL.

Lemma validateImageUrl_cases (url : string) :
  validateImageUrl URL_parse url
  = match URL_parse url with
    | None => {| valid := false; reason := Some "Invalid URL format" |}
    | Some u =>
        if existsb (String.eqb (protocol u)) ["http:"; "https:"]
        then if existsb (fun ext => JS.endsWith (JS.toLowerCase (pathname u)) ext)
                        validExtensions
             then {| valid := true; reason := None |}
             else {| valid := false; reason := Some "Invalid image extension" |}
        else {| valid := false; reason := Some "Invalid protocol" |}
    end.
Proof.
  unfold validateImageUrl. destruct (URL_parse url) as [u |]; [| reflexivity].
  destruct (existsb (String.eqb (protocol u)) _); [| reflexivity].
  cbv zeta. destruct (existsb _ validExtensions); reflexivity.
Qed.

End WithRuntime.

(** C5: [validateImageUrl(url)] is valid exactly when [url] parses as a
    URL, its protocol is http or https and its path ends, up to case, in
    one of the six extensions.  A URL with another protocol is rejected
    with the reason "Invalid protocol" whatever its path is: the protocol
    is checked first.  A URL with an allowed protocol whose path has none
    of the extensions is rejected with "Invalid image extension". *)
Theorem validateImageUrl_spec :
  forall (URL_parse : string -> option URL) (url : string),
    (valid (validateImageUrl URL_parse url) = true
     <-> exists u,
          URL_parse url = Some u
          /\ (protocol u = "http:" \/ protocol u = "https:")
          /\ exists ext, In ext [".jpg"; ".jpeg"; ".png"; ".webp"; ".gif"; ".bmp"]
                         /\ endsWithIgnoringCase (pathname u) ext)
    /\ (forall u,
          URL_parse url = Some u ->
          protocol u <> "http:" -> protocol u <> "https:" ->
          validateImageUrl URL_parse url
          = {| valid := false; reason := Some "Invalid protocol" |})
    /\ (forall u,
          URL_parse url = Some u ->
          protocol u = "http:" \/ protocol u = "https:" ->
          (forall ext, In ext [".jpg"; ".jpeg"; ".png"; ".webp"; ".gif"; ".bmp"] ->
                       ~ endsWithIgnoringCase (pathname u) ext) ->
          validateImageUrl URL_parse url
          = {| valid := false; reason := Some "Invalid image extension" |})
    /\ (URL_parse url = None ->
        validateImageUrl URL_parse url
        = {| valid := false; reason := Some "Invalid URL format" |}).
Proof.
  intros URL_parse url. rewrite validateImageUrl_cases.
  destruct (URL_parse url) as [u |] eqn:Hparse.
  - destruct (existsb (String.eqb (protocol u)) _) eqn:Hproto.
    + apply protocol_check in Hproto.
      destruct (existsb _ validExtensions) eqn:Hext.
      * apply extension_check in Hext.
        split; [| split; [| split]].
        -- split; [intros _; exists u; auto | reflexivity].
        -- intros v Hv H1 H2. injection Hv as <-. tauto.
        -- intros v Hv _ Hnone. injection Hv as <-.
           destruct Hext as [ext [Hin H]]. now destruct (Hnone ext Hin).
        -- discriminate.
      * split; [| split; [| split]].
        -- split; [discriminate |].
           intros [v [Hv [_ Hsome]]]. injection Hv as <-.
           apply extension_check in Hsome. congruence.
        -- intros v Hv H1 H2. injection Hv as <-. tauto.
        -- reflexivity.
        -- discriminate.
    + split; [| split; [| split]].
      * split; [discriminate |].
        intros [v [Hv [Hok _]]]. injection Hv as <-.
        apply protocol_check in Hok. congruence.
      * reflexivity.
      * intros v Hv Hok _. injection Hv as <-.
        apply protocol_check in Hok. congruence.
      * discriminate.
  - split; [| split; [| split]].
    + split; [discriminate | intros [v [Hv _]]; discriminate Hv].
    + intros v Hv. discriminate Hv.
    + intros v Hv. discriminate Hv.
    + reflexivity.
Qed.

(** The checks at work on plain URLs. *)
Example validateImageUrl_runs :
  validateImageUrl PlainUrl.read "https://example.com/findaphoto/bigLink/17021.JPG"
  = {| valid := true; reason := None |}
  /\ validateImageUrl PlainUrl.read "ftp://example.com/a.txt"
     = {| valid := false; reason := Some "Invalid protocol" |}
  /\ validateImageUrl PlainUrl.read "ftp://example.com/a.png"
     = {| valid := false; reason := Some "Invalid protocol" |}
  /\ validateImageUrl PlainUrl.read "https://example.com/a.txt"
     = {| valid := false; reason := Some "Invalid image extension" |}
  /\ validateImageUrl PlainUrl.read "no url"
     = {| valid := false; reason := Some "Invalid URL format" |}.
Proof. repeat split; reflexivity. Qed.

End ValidateFacts.

(* ===================================================================== *)
(** * convertToProxyUrl and convertToOriginalUrl *)
(* ===================================================================== *)

Module ConvertFacts.
Import ProxyUtils Text.

Lemma execLiteralGroup_unfold (literal s : string) :
  RegExp.execLiteralGroup literal s
  = match (if String.prefix literal s
           then match RegExp.takeDots (JS.substringFrom (String.length literal) s) with
                | EmptyString => None
                | g => Some g
                end
           else None) with
    | Some g => Some g
    | None => match s with
              | EmptyString => None
              | String _ r => RegExp.execLiteralGroup literal r
              end
    end.
Proof. destruct s; reflexivity. Qed.







(** The conversions at work on plain URLs; a URL on another host, or
    without a [/wallpaper/] path, is not converted. *)
Example convertToProxyUrl_runs :
  convertToProxyUrl PlainUrl.read
    "https://infinitypro-img.infinitynewtab.com/wallpaper/bigLink/17021.jpg"
    DEFAULT_PROXY_CONFIG
  = Some "https://your-domain.vercel.app/api/wallpaper/bigLink/17021.jpg"
  /\ convertToOriginalUrl PlainUrl.read PlainUrl.noEngine
       "https://your-domain.vercel.app/api/wallpaper/bigLink/17021.jpg"
       DEFAULT_PROXY_CONFIG
     = Some "https://infinitypro-img.infinitynewtab.com/wallpaper/bigLink/17021.jpg"
  /\ convertToProxyUrl PlainUrl.read "https://example.com/wallpaper/bigLink/17021.jpg"
       DEFAULT_PROXY_CONFIG
     = None
  /\ convertToProxyUrl PlainUrl.read
       "https://infinitypro-img.infinitynewtab.com/findaphoto/bigLink/17021.jpg"
       DEFAULT_PROXY_CONFIG
     = None.
Proof. repeat split; reflexivity. Qed.

End ConvertFacts.

(* ===================================================================== *)
(** * The image-proxy handler and the statistics *)
(* ===================================================================== *)

Module HandlerFacts.
Import Eff FindaphotoProxy ProxyRun.

(** The effect of one recorded call on the world. *)
Lemma updateProxyStats_run env success responseTime fromCache w :
  updateProxyStats env success responseTime fromCache w
  = (Ok tt,
     {| proxyStats := ProxyUtils.updateProxyStats (clock env (reads w)) success responseTime
                                                  fromCache (proxyStats w);
        reads := S (reads w);
        updates := (updates w ++ [(success, responseTime, fromCache)])%list |}).
Proof. reflexivity. Qed.

(** The step every branch of the handler ends with: read the clock, make
    the call, return. *)
Ltac single_update :=
  unfold throw, Date_now, ret; rewrite updateProxyStats_run;
  cbn [reads proxyStats updates];
  do 6 eexists; split; [reflexivity |]; cbn [reads proxyStats updates];
  split; [reflexivity |]; split; [reflexivity |].

(** C2: every invocation of the handler returns a response (nothing is
    thrown to the runtime) and makes exactly one call to
    [updateProxyStats]: with [success = false] when the path is empty,
    when the URL is not valid, when the origin answers neither 304 nor
    2xx, and when an exception is caught (the answer is then the one of
    the [catch] block); with [success = true, fromCache = true] when the
    origin answers 304; with [success = true, fromCache = false] when the
    origin answers 2xx and the image is served. *)
Theorem handler_updates_stats_once :
  forall (URL_parse : string -> option ProxyUtils.URL) (env : Env)
         (req : Request) (w : World),
  exists (resp : Response) (w' : World) (success fromCache : bool) (elapsed stamp : Z),
    handler URL_parse env req w = (Ok resp, w')
    /\ updates w' = (updates w ++ [(success, elapsed, fromCache)])%list
    /\ proxyStats w'
       = ProxyUtils.updateProxyStats stamp success elapsed fromCache (proxyStats w)
    /\ (caughtAnswer resp -> success = false /\ fromCache = false)
    /\ (requestPath req = "" ->
        success = false /\ fromCache = false
        /\ resp = JsonResponse [("error", JString "Path is required")] 400)
    /\ (requestPath req <> "" ->
        ProxyUtils.valid
          (ProxyUtils.validateImageUrl URL_parse (originalUrlOf (requestPath req))) = false ->
        success = false /\ fromCache = false
        /\ exists fields, resp = JsonResponse (("error", JString "Invalid image URL") :: fields) 400)
    /\ (requestPath req <> "" ->
        ProxyUtils.valid
          (ProxyUtils.validateImageUrl URL_parse (originalUrlOf (requestPath req))) = true ->
        match fetch env (originalUrlOf (requestPath req)) (fetchHeaders req) with
        | None => success = false /\ fromCache = false /\ caughtAnswer resp
        | Some response =>
            if status response =? 304
            then success = true /\ fromCache = true
                 /\ exists headers, resp = RawResponse None 304 headers
            else if negb (WallpaperUtils.ok (status response))
            then success = false /\ fromCache = false
                 /\ exists fields code,
                      resp = JsonResponse (("error", JString "Image not found") :: fields) code
            else (success = true /\ fromCache = false
                  /\ exists image headers, resp = RawResponse (Some image) 200 headers)
                 \/ (success = false /\ fromCache = false /\ caughtAnswer resp)
        end).
Proof.
  intros URL_parse env req w.
  unfold handler, bind, tryCatch. unfold Date_now at 1. cbv beta iota zeta.
  destruct (String.eqb_spec (requestPath req) "") as [Hempty | Hpath].
  { (* no path *)
    single_update.
    split; [intros [m Hm]; discriminate Hm |].
    split; [auto |]. split; intros; contradiction. }
  destruct (ProxyUtils.valid (ProxyUtils.validateImageUrl URL_parse _)) eqn:Hvalid;
    cbn [negb].
  2: { (* the URL is not valid *)
    single_update.
    split; [intros [m Hm]; discriminate Hm |].
    split; [intros; contradiction |].
    split; [intros _ _; repeat split; eauto | intros _ H; discriminate H]. }
  destruct (fetch env _ _) as [response |] eqn:Hfetch.
  2: { (* fetch rejects *)
    single_update.
    split; [auto |].
    split; [intros; contradiction |].
    split; [intros _ H; discriminate H |].
    intros _ _. split; [reflexivity |]. split; [reflexivity |]. eexists; reflexivity. }
  unfold ret at 1. cbv beta iota.
  destruct (status response =? 304) eqn:H304.
  { (* 304 *)
    single_update.
    split; [intros [m Hm]; discriminate Hm |].
    split; [intros; contradiction |].
    split; [intros _ H; discriminate H |].
    intros _ _. split; [reflexivity |]. split; [reflexivity |]. eexists; reflexivity. }
  destruct (WallpaperUtils.ok (status response)) eqn:Hok; cbn [negb].
  2: { (* neither 304 nor 2xx *)
    single_update.
    split; [intros [m Hm]; discriminate Hm |].
    split; [intros; contradiction |].
    split; [intros _ H; discriminate H |].
    intros _ _. split; [reflexivity |]. split; [reflexivity |]. do 2 eexists; reflexivity. }
  (* 2xx *)
  destruct (body response) as [image |] eqn:Hbody.
  2: { (* reading the body fails *)
    single_update.
    split; [auto |].
    split; [intros; contradiction |].
    split; [intros _ H; discriminate H |].
    intros _ _. right. split; [reflexivity |]. split; [reflexivity |]. eexists; reflexivity. }
  unfold ret at 1. cbv beta iota. unfold lift at 1.
  destruct (headersBeforeTiming _ response) as [h1 | e1] eqn:Hh1.
  2: { (* a header value is refused *)
    single_update.
    split; [auto |].
    split; [intros; contradiction |].
    split; [intros _ H; discriminate H |].
    intros _ _. right. split; [reflexivity |]. split; [reflexivity |]. eexists; reflexivity. }
  unfold Date_now at 1. cbv beta iota. unfold lift at 1. cbn [reads].
  destruct (headersFromTiming URL_parse _ _ h1) as [h2 | e2] eqn:Hh2.
  2: { (* a header value is refused *)
    single_update.
    split; [auto |].
    split; [intros; contradiction |].
    split; [intros _ H; discriminate H |].
    intros _ _. right. split; [reflexivity |]. split; [reflexivity |]. eexists; reflexivity. }
  (* the image is served *)
  single_update.
  split; [intros [m Hm]; discriminate Hm |].
  split; [intros; contradiction |].
  split; [intros _ H; discriminate H |].
  intros _ _. left. split; [reflexivity |]. split; [reflexivity |]. do 2 eexists; reflexivity.
Qed.

(** The one call of an invocation reports a cache hit only together with
    a success. *)
Lemma handler_hit_is_success URL_parse env req w :
  exists (resp : Response) (w' : World) (success fromCache : bool) (elapsed stamp : Z),
    handler URL_parse env req w = (Ok resp, w')
    /\ updates w' = (updates w ++ [(success, elapsed, fromCache)])%list
    /\ proxyStats w'
       = ProxyUtils.updateProxyStats stamp success elapsed fromCache (proxyStats w)
    /\ implb fromCache success = true.
Proof.
  unfold handler, bind, tryCatch. unfold Date_now at 1. cbv beta iota zeta.
  destruct (String.eqb (requestPath req) ""); [single_update; reflexivity |].
  destruct (ProxyUtils.valid (ProxyUtils.validateImageUrl URL_parse _)); cbn [negb];
    [| single_update; reflexivity].
  destruct (fetch env _ _) as [response |]; [| single_update; reflexivity].
  unfold ret at 1. cbv beta iota.
  destruct (status response =? 304); [single_update; reflexivity |].
  destruct (WallpaperUtils.ok (status response)); cbn [negb];
    [| single_update; reflexivity].
  destruct (body response) as [image |]; [| single_update; reflexivity].
  unfold ret at 1. cbv beta iota. unfold lift at 1.
  destruct (headersBeforeTiming _ response) as [h1 | e1]; [| single_update; reflexivity].
  unfold Date_now at 1. cbv beta iota. unfold lift at 1. cbn [reads].
  destruct (headersFromTiming URL_parse _ _ h1) as [h2 | e2]; single_update; reflexivity.
Qed.

(** Whatever requests the handler serves, and whatever the origin does,
    the statistics keep [cacheHits] within [successfulRequests], and the
    number of recorded calls is the number of requests served. *)
Lemma serve_keeps_hits_within_successes URL_parse visits :
  forall w,
    Stats.hitsWithinSuccesses (proxyStats w) ->
    Stats.hitsWithinSuccesses (proxyStats (serve URL_parse visits w))
    /\ List.length (updates (serve URL_parse visits w))
       = (List.length (updates w) + List.length visits)%nat.
Proof.
  induction visits as [| [env req] visits IH]; intros w Hw; simpl.
  - split; [exact Hw | lia].
  - destruct (handler_hit_is_success URL_parse env req w)
      as [resp [w' [success [fromCache [elapsed [stamp [Hrun [Hupd [Hstats Himp]]]]]]]]].
    rewrite Hrun. simpl.
    destruct (IH w') as [Hinv Hlen].
    + rewrite Hstats.
      apply (StatsFacts.hitsWithinSuccesses_after
               [Stats.Update stamp success elapsed fromCache] (proxyStats w) Hw).
      simpl. now rewrite Himp.
    + split; [exact Hinv |]. rewrite Hlen, Hupd, length_app. simpl. lia.
Qed.

(** One request on each path of the handler. *)
Example handler_runs :
  updates (snd (handler PlainUrl.read (answering (originAnswer 200 (Some [])))
                        (get "bigLink/17021.jpg") freshWorld))
  = [(true, 20, false)]
  /\ updates (snd (handler PlainUrl.read (answering (originAnswer 304 None))
                           (get "bigLink/17021.jpg") freshWorld))
     = [(true, 10, true)]
  /\ updates (snd (handler PlainUrl.read (answering (originAnswer 503 None))
                           (get "bigLink/17021.jpg") freshWorld))
     = [(false, 10, false)]
  /\ updates (snd (handler PlainUrl.read (answering (originAnswer 200 None))
                           (get "bigLink/17021.jpg") freshWorld))
     = [(false, 10, false)]
  /\ updates (snd (handler PlainUrl.read unreachable (get "bigLink/17021.jpg") freshWorld))
     = [(false, 10, false)]
  /\ updates (snd (handler PlainUrl.read unreachable (get "bigLink/notes.txt") freshWorld))
     = [(false, 10, false)]
  /\ updates (snd (handler PlainUrl.read unreachable (get "") freshWorld))
     = [(false, 10, false)].
Proof. repeat split; reflexivity. Qed.

End HandlerFacts.


(* ===================================================================== *)
(** * The catalogue and feed caches *)
(* ===================================================================== *)

Module CacheFacts.
Import Eff WallpaperUtils Catalogue Fixtures.

Lemma fetchJson_unusable {A : Type} (r : FetchResult A) (failure : string) (st : Store) :
  unusable r -> exists e, fetchJson r failure st = (Throw e, st).
Proof.
  destruct r as [| status json]; simpl; intros H.
  - eexists; reflexivity.
  - unfold fetchJson. destruct (ok status); simpl.
    + destruct H as [H | ->]; [discriminate | eexists; reflexivity].
    + eexists; reflexivity.
Qed.

Lemma loadWallpaperData_fresh env st cached :
  cachedData st = Some cached ->
  now env - lastCacheTime st < CACHE_DURATION ->
  loadWallpaperData env st = (Ok cached, st).
Proof.
  intros Hc Hfresh. unfold loadWallpaperData, bind, get. rewrite Hc.
  destruct (Z.ltb_spec (now env - lastCacheTime st) CACHE_DURATION); [reflexivity | lia].
Qed.

Lemma loadWallpaperData_stale env st :
  stale (now env) st ->
  loadWallpaperData env st
  = match fetchJson (catalog env) "Failed to fetch data: " st with
    | (Ok d, _) =>
        (Ok d, {| cachedData := Some d; lastCacheTime := now env;
                  cachedBingData := cachedBingData st;
                  lastBingCacheTime := lastBingCacheTime st |})
    | (Throw _, st') => (Throw (MkError "Failed to load wallpaper data"), st')
    end.
Proof.
  intros Hstale. unfold loadWallpaperData, bind, get, tryCatch, modify, ret, throw.
  assert (Hst : snd (fetchJson (catalog env) "Failed to fetch data: " st) = st).
  { unfold fetchJson. destruct (catalog env) as [| status json]; [reflexivity |].
    destruct (negb (ok status)); [reflexivity |]. destruct json; reflexivity. }
  destruct (cachedData st) as [cached |] eqn:Hc.
  - destruct Hstale as [H | Hold]; [congruence |].
    destruct (Z.ltb_spec (now env - lastCacheTime st) CACHE_DURATION); [lia |].
    destruct (fetchJson (catalog env) _ st) as [[d | e] st1]; simpl in Hst; subst; reflexivity.
  - destruct (fetchJson (catalog env) _ st) as [[d | e] st1]; simpl in Hst; subst; reflexivity.
Qed.

Lemma loadWallpaperData_caches env st st' d :
  loadWallpaperData env st = (Ok d, st') -> cachedData st' = Some d.
Proof.
  intros H.
  destruct (cachedData st) as [cached |] eqn:Hc.
  - destruct (Z_lt_le_dec (now env - lastCacheTime st) CACHE_DURATION) as [Hf | Ho].
    + rewrite (loadWallpaperData_fresh env st cached Hc Hf) in H. now injection H as <- <-.
    + rewrite loadWallpaperData_stale in H by (right; exact Ho).
      destruct (fetchJson _ _ st) as [[x | e] st1]; [| discriminate].
      now injection H as <- <-.
  - rewrite loadWallpaperData_stale in H by (left; exact Hc).
    destruct (fetchJson _ _ st) as [[x | e] st1]; [| discriminate].
    now injection H as <- <-.
Qed.

(** X1: once a load has succeeded, every load within the following five
    minutes is answered from the cache: it returns the same entries and
    leaves the store as it is, whatever the catalogue endpoint would
    answer now. *)
Theorem loadWallpaperData_within_ttl :
  forall (env env' : Env) (st st' : Store) (d : list WallpaperItem),
    loadWallpaperData env st = (Ok d, st') ->
    now env' - lastCacheTime st' < CACHE_DURATION ->
    loadWallpaperData env' st' = (Ok d, st').
Proof.
  intros env env' st st' d Hload Hfresh.
  apply loadWallpaperData_fresh; [| exact Hfresh].
  eapply loadWallpaperData_caches; eassumption.
Qed.

Lemma loadWallpaperData_within_ttl_witness :
  loadWallpaperData (serving (entries 3) []) initialStore
  = (Ok (entries 3), cached (entries 3))
  /\ 299999 - lastCacheTime (cached (entries 3)) < CACHE_DURATION
  /\ loadWallpaperData {| now := 299999; isoDate := ""; catalog := NetworkError;
                          bingFeed := NetworkError |}
                       (cached (entries 3))
     = (Ok (entries 3), cached (entries 3)).
Proof.
  split; [reflexivity |]. split; [reflexivity |].
  apply (loadWallpaperData_within_ttl (serving (entries 3) [])
           {| now := 299999; isoDate := ""; catalog := NetworkError; bingFeed := NetworkError |}
           initialStore (cached (entries 3)) (entries 3));
    reflexivity.
Defined.

(** X2: when the cache is empty or five minutes old the endpoint is
    asked.  A usable answer replaces the cache and is returned; an
    unusable one makes the load throw "Failed to load wallpaper data",
    whatever went wrong, and the store stays as it was: the old entries
    are not served in its place. *)
Theorem loadWallpaperData_after_ttl :
  forall (env : Env) (st : Store),
    stale (now env) st ->
    (forall status d,
        catalog env = HttpResponse status (Some d) -> ok status = true ->
        loadWallpaperData env st
        = (Ok d, {| cachedData := Some d; lastCacheTime := now env;
                    cachedBingData := cachedBingData st;
                    lastBingCacheTime := lastBingCacheTime st |}))
    /\ (unusable (catalog env) ->
        loadWallpaperData env st
        = (Throw (MkError "Failed to load wallpaper data"), st)).
Proof.
  intros env st Hstale. rewrite (loadWallpaperData_stale env st Hstale). split.
  - intros status d Hcat Hok. rewrite Hcat. unfold fetchJson. rewrite Hok. reflexivity.
  - intros Hbad. destruct (fetchJson_unusable (catalog env) "Failed to fetch data: " st Hbad)
      as [e He].
    now rewrite He.
Qed.

Lemma loadWallpaperData_after_ttl_witness :
  stale 400000 (cached (entries 3))
  /\ unusable (@NetworkError (list WallpaperItem))
  /\ loadWallpaperData {| now := 400000; isoDate := ""; catalog := NetworkError;
                          bingFeed := NetworkError |}
                       (cached (entries 3))
     = (Throw (MkError "Failed to load wallpaper data"), cached (entries 3)).
Proof.
  assert (Hstale : stale 400000 (cached (entries 3))).
  { right. vm_compute. discriminate. }
  split; [exact Hstale |]. split; [exact I |].
  exact (proj2 (loadWallpaperData_after_ttl
                  {| now := 400000; isoDate := ""; catalog := NetworkError;
                     bingFeed := NetworkError |}
                  (cached (entries 3)) Hstale) I).
Defined.

End CacheFacts.

Module BingCacheFacts.
Import Eff WallpaperUtils Catalogue Fixtures.

Lemma loadBingWallpaperData_fresh env st cached :
  cachedBingData st = Some cached ->
  now env - lastBingCacheTime st < BING_CACHE_DURATION ->
  loadBingWallpaperData env st = (Ok cached, st).
Proof.
  intros Hc Hfresh. unfold loadBingWallpaperData, bind, get. rewrite Hc.
  destruct (Z.ltb_spec (now env - lastBingCacheTime st) BING_CACHE_DURATION);
    [reflexivity | lia].
Qed.

Lemma loadBingWallpaperData_refreshed env st status images :
  staleBing (now env) st ->
  bingFeed env = HttpResponse status (Some images) ->
  ok status = true ->
  loadBingWallpaperData env st
  = (Ok (match images with Some l => l | None => [] end),
     {| cachedData := cachedData st; lastCacheTime := lastCacheTime st;
        cachedBingData := Some (match images with Some l => l | None => [] end);
        lastBingCacheTime := now env |}).
Proof.
  intros Hstale Hfeed Hok.
  unfold loadBingWallpaperData, bind, get, tryCatch, modify, ret, fetchJson.
  rewrite Hfeed, Hok. simpl negb. cbv iota.
  destruct (cachedBingData st) as [cached |] eqn:Hc; [| reflexivity].
  destruct Hstale as [H | Hold]; [congruence |].
  destruct (Z.ltb_spec (now env - lastBingCacheTime st) BING_CACHE_DURATION);
    [lia | reflexivity].
Qed.

(** X3: a feed that is fetched without entries (an empty [images] array,
    or none at all) is cached like any other: the call answers with the
    code 500 result, and so does every call within the following hour,
    whatever the feed would answer by then. *)
Theorem getBingWallpaperList_caches_empty_feed :
  forall (env env' : Env) (st : Store) (status : Z)
         (images : option (list BingWallpaperItem)),
    staleBing (now env) st ->
    bingFeed env = HttpResponse status (Some images) ->
    ok status = true ->
    images = None \/ images = Some [] ->
    let st' := snd (getBingWallpaperList env st) in
    fst (getBingWallpaperList env st) = Ok (bingFailure (isoDate env))
    /\ (now env' - now env < BING_CACHE_DURATION ->
        getBingWallpaperList env' st' = (Ok (bingFailure (isoDate env')), st')).
Proof.
  intros env env' st status images Hstale Hfeed Hok Hempty st'.
  assert (Hload : loadBingWallpaperData env st
                  = (Ok [], {| cachedData := cachedData st; lastCacheTime := lastCacheTime st;
                               cachedBingData := Some []; lastBingCacheTime := now env |})).
  { rewrite (loadBingWallpaperData_refreshed env st status images Hstale Hfeed Hok).
    destruct Hempty as [-> | ->]; reflexivity. }
  assert (Hrun : getBingWallpaperList env st
                 = (Ok (bingFailure (isoDate env)),
                    {| cachedData := cachedData st; lastCacheTime := lastCacheTime st;
                       cachedBingData := Some []; lastBingCacheTime := now env |})).
  { rewrite BingFacts.getBingWallpaperList_unfold, Hload. reflexivity. }
  unfold st'. rewrite Hrun. simpl fst. simpl snd. split; [reflexivity |].
  intros Hsoon. rewrite BingFacts.getBingWallpaperList_unfold.
  rewrite (loadBingWallpaperData_fresh env' _ []); [reflexivity | reflexivity | exact Hsoon].
Qed.

Lemma getBingWallpaperList_caches_empty_feed_witness :
  staleBing 1000 initialStore
  /\ bingFeed (serving [] []) = HttpResponse 200 (Some (Some []))
  /\ ok 200 = true
  /\ fst (getBingWallpaperList (serving [] []) initialStore)
     = Ok (bingFailure (isoDate (serving [] [])))
  /\ (2000 - 1000 < BING_CACHE_DURATION ->
      getBingWallpaperList
        {| now := 2000; isoDate := "later"; catalog := NetworkError;
           bingFeed := NetworkError |}
        (snd (getBingWallpaperList (serving [] []) initialStore))
      = (Ok (bingFailure "later"),
         snd (getBingWallpaperList (serving [] []) initialStore))).
Proof.
  assert (Hstale : staleBing 1000 initialStore) by (left; reflexivity).
  split; [exact Hstale |]. split; [reflexivity |]. split; [reflexivity |].
  exact (getBingWallpaperList_caches_empty_feed
           (serving [] [])
           {| now := 2000; isoDate := "later"; catalog := NetworkError;
              bingFeed := NetworkError |}
           initialStore 200 (Some []) Hstale eq_refl eq_refl (or_intror eq_refl)).
Defined.

End BingCacheFacts.

(* ===================================================================== *)
(** * The list route and the page size *)
(* ===================================================================== *)

Module RouteFacts.
Import Eff WallpaperUtils Catalogue Paging Fixtures.

Lemma getWallpaperList_failed env st st' e page' source' pageSize :
  loadWallpaperData env st = (Throw e, st') ->
  getWallpaperList page' source' pageSize env st
  = (Ok (emptyPage 500 "Internal server error"), st').
Proof.
  intros Hload. unfold getWallpaperList, tryCatch, bind. now rewrite Hload.
Qed.

Lemma getWallpaperList_code env st page' source' pageSize :
  exists r st',
    getWallpaperList page' source' pageSize env st = (Ok r, st')
    /\ (code r = 200 \/ code r = 400 \/ code r = 500).
Proof.
  destruct (loadWallpaperData env st) as [[allData | e] st'] eqn:Hload.
  - rewrite (ListFacts.getWallpaperList_loaded _ _ _ _ _ _ _ Hload). cbv zeta.
    destruct (JS.isNaN _ || JS.lt _ _); eexists; eexists; (split; [reflexivity |]);
      simpl; auto.
  - rewrite (getWallpaperList_failed _ _ _ _ _ _ _ Hload).
    eexists; eexists; split; [reflexivity |]. simpl; auto.
Qed.

(** X4: the route [GET /getWallpaperList] always answers: the HTTP status
    is the [code] of the body, one of 200, 400 and 500; when the
    catalogue cannot be loaded the answer is 500 with the empty page
    [list = [], total = 0, page = 1, totalPage = 0], whatever the
    parameters are. *)
Theorem getWallpaperListRoute_status :
  forall (page' source' pageSize : option string) (env : Env) (st : Store),
  exists (r : WallpaperListResponse) (st' : Store),
    ApiV1.getWallpaperListRoute page' source' pageSize env st = (Ok (code r, r), st')
    /\ (code r = 200 \/ code r = 400 \/ code r = 500)
    /\ (forall e st1,
          loadWallpaperData env st = (Throw e, st1) ->
          st' = st1
          /\ r = {| code := 500;
                    data := {| data_list := []; total := 0;
                               page := JS.Num 1; totalPage := JS.Num 0 |};
                    message := "Internal server error" |}).
Proof.
  intros page' source' pageSize env st.
  unfold ApiV1.getWallpaperListRoute, bind.
  set (size := if JS.truthy pageSize then JS.parseInt (JS.orElse pageSize "") else JS.Num 20).
  destruct (getWallpaperList_code env st page' source' (Some size)) as [r [st' [Hrun Hcode]]].
  exists r, st'. rewrite Hrun. split; [| split].
  - destruct Hcode as [H | [H | H]]; rewrite H; reflexivity.
  - exact Hcode.
  - intros e st1 Hload.
    rewrite (getWallpaperList_failed _ _ _ _ _ _ _ Hload) in Hrun.
    injection Hrun as <- <-. split; reflexivity.
Qed.

(** X5: the page size is not validated.  With the catalogue loaded and a
    page that parses to [p >= 1], a page size that is not a number (as
    [?pageSize=abc] gives) or is 0 is answered with code 200, an empty
    list, and a [totalPage] that is no integer. *)
Theorem getWallpaperList_page_size_nan_or_zero :
  forall (env : Env) (st st' : Store) (allData : list WallpaperItem)
         (source' : option string) (page' : string) (p : Z) (pageSize : JS.number),
    loadWallpaperData env st = (Ok allData, st') ->
    JS.parseInt page' = JS.Num p ->
    1 <= p ->
    pageSize = JS.NaN \/ pageSize = JS.Num 0 ->
    exists r : WallpaperListResponse,
      getWallpaperList (Some page') source' (Some pageSize) env st = (Ok r, st')
      /\ code r = 200
      /\ data_list (data r) = []
      /\ total (data r) = Z.of_nat (List.length (filterBySource allData source'))
      /\ forall z, totalPage (data r) <> JS.Num z.
Proof.
  intros env st st' allData source' page' p pageSize Hload Hparse Hp Hsize.
  rewrite (ListFacts.getWallpaperList_loaded _ _ _ _ _ _ _ Hload). cbv zeta.
  rewrite (ParseIntFacts.orElse_nonempty page' "1")
    by (eapply ParseIntFacts.parseInt_Num_nonempty; eassumption).
  rewrite Hparse. simpl JS.isNaN. simpl JS.lt.
  destruct (Z.ltb_spec p 1) as [? | _]; [lia |]. simpl orb. cbv iota.
  eexists. split; [reflexivity |]. simpl. split; [reflexivity |].
  destruct Hsize as [-> | ->]; simpl.
  - split; [reflexivity |]. split; [reflexivity | discriminate].
  - rewrite Z.mul_0_r. split; [| split; [reflexivity |]].
    + unfold JS.slice. simpl. rewrite Z.min_l by lia. reflexivity.
    + intros z. unfold JS.signed_infinity.
      destruct (_ =? 0); [discriminate |]. destruct (0 <? _); discriminate.
Qed.

Lemma getWallpaperList_page_size_nan_or_zero_witness :
  loadWallpaperData (serving (entries 45) []) initialStore
  = (Ok (entries 45), cached (entries 45))
  /\ JS.parseInt "1" = JS.Num 1
  /\ 1 <= 1
  /\ JS.parseInt "abc" = JS.NaN
  /\ exists r : WallpaperListResponse,
      getWallpaperList (Some "1") None (Some (JS.parseInt "abc"))
                       (serving (entries 45) []) initialStore
      = (Ok r, cached (entries 45))
      /\ code r = 200
      /\ data_list (data r) = []
      /\ total (data r) = Z.of_nat (List.length (filterBySource (entries 45) None))
      /\ forall z, totalPage (data r) <> JS.Num z.
Proof.
  split; [reflexivity |]. split; [reflexivity |]. split; [lia |]. split; [reflexivity |].
  apply (getWallpaperList_page_size_nan_or_zero (serving (entries 45) []) initialStore
           (cached (entries 45)) (entries 45) None "1" 1 (JS.parseInt "abc"));
    [reflexivity | reflexivity | lia | left; reflexivity].
Defined.

(** X6: a negative page size [-k] is accepted too.  Page 1 then lists
    every entry of the filtered list except the last [k]: the lower
    bound of the slice is 0 and the upper bound counts from the end.
    Every later page is empty.  The code is 200 in both cases. *)
Theorem getWallpaperList_negative_page_size :
  forall (env : Env) (st st' : Store) (allData : list WallpaperItem)
         (source' : option string) (page' : string) (p k : Z),
    loadWallpaperData env st = (Ok allData, st') ->
    JS.parseInt page' = JS.Num p ->
    1 <= p ->
    0 < k ->
    let filtered := filterBySource allData source' in
    exists r : WallpaperListResponse,
      getWallpaperList (Some page') source' (Some (JS.Num (- k))) env st = (Ok r, st')
      /\ code r = 200
      /\ (p = 1 ->
          data_list (data r) = firstn (List.length filtered - Z.to_nat k) filtered)
      /\ (1 < p -> data_list (data r) = []).
Proof.
  intros env st st' allData source' page' p k Hload Hparse Hp Hk filtered.
  rewrite (ListFacts.getWallpaperList_loaded _ _ _ _ _ _ _ Hload). cbv zeta.
  rewrite (ParseIntFacts.orElse_nonempty page' "1")
    by (eapply ParseIntFacts.parseInt_Num_nonempty; eassumption).
  rewrite Hparse. simpl JS.isNaN. simpl JS.lt.
  destruct (Z.ltb_spec p 1) as [? | _]; [lia |]. simpl orb. cbv iota.
  eexists. split; [reflexivity |]. simpl code. simpl data_list. split; [reflexivity |].
  fold filtered. set (len := Z.of_nat (List.length filtered)).
  assert (Hlen : 0 <= len) by (unfold len; lia).
  simpl JS.sub. simpl JS.mul. simpl JS.add. unfold JS.slice, JS.relativeIndex. fold len.
  split.
  - intros Hfirst.
    destruct (Z.ltb_spec ((p - 1) * - k) 0) as [? | _]; [nia |].
    destruct (Z.ltb_spec ((p - 1) * - k + - k) 0) as [_ | ?]; [| nia].
    replace (Z.to_nat (Z.min ((p - 1) * - k) len)) with 0%nat by nia.
    simpl skipn. f_equal. unfold len. nia.
  - intros Hlate.
    destruct (Z.ltb_spec ((p - 1) * - k) 0) as [_ | ?]; [| nia].
    destruct (Z.ltb_spec ((p - 1) * - k + - k) 0) as [_ | ?]; [| nia].
    replace (Z.to_nat (Z.max (len + ((p - 1) * - k + - k)) 0
                       - Z.max (len + (p - 1) * - k) 0)) with 0%nat by lia.
    reflexivity.
Qed.

Lemma getWallpaperList_negative_page_size_witness :
  loadWallpaperData (serving (entries 45) []) initialStore
  = (Ok (entries 45), cached (entries 45))
  /\ JS.parseInt "1" = JS.Num 1
  /\ 1 <= 1
  /\ 0 < 1
  /\ exists r : WallpaperListResponse,
      getWallpaperList (Some "1") None (Some (JS.Num (- 1)))
                       (serving (entries 45) []) initialStore
      = (Ok r, cached (entries 45))
      /\ code r = 200
      /\ (1 = 1 ->
          data_list (data r)
          = firstn (List.length (filterBySource (entries 45) None) - Z.to_nat 1)
                   (filterBySource (entries 45) None))
      /\ (1 < 1 -> data_list (data r) = []).
Proof.
  split; [reflexivity |]. split; [reflexivity |]. split; [lia |]. split; [lia |].
  apply (getWallpaperList_negative_page_size (serving (entries 45) []) initialStore
           (cached (entries 45)) (entries 45) None "1" 1 1);
    [reflexivity | reflexivity | lia | lia].
Defined.

(** X7: [getAvailableSources] catches every failure itself, so the
    [catch] block of the route [GET /getSources] is never entered: the
    route always answers with HTTP status 200 and code 200, with the
    empty array when the catalogue cannot be loaded. *)
Theorem getSourcesRoute_always_200 :
  forall (env : Env) (st : Store),
  exists (sources : list string) (st' : Store),
    ApiV1.getSourcesRoute env st = (Ok (200, (200, sources, "Success")), st')
    /\ (forall e st1, loadWallpaperData env st = (Throw e, st1) -> sources = []).
Proof.
  intros env st. unfold ApiV1.getSourcesRoute, tryCatch, bind.
  rewrite SourcesFacts.getAvailableSources_unfold.
  destruct (loadWallpaperData env st) as [[allData | e] st'].
  - eexists; eexists; split; [reflexivity |]. intros e st1 H. discriminate H.
  - eexists; eexists; split; [reflexivity |]. reflexivity.
Qed.

End RouteFacts.

(* ===================================================================== *)
(** * Pages and the source filter *)
(* ===================================================================== *)

Module PageFacts.
Import Eff WallpaperUtils Catalogue Paging Fixtures.

(** The list of page [p]. *)
Lemma page_list env st st' allData source' pageSize p page' :
  loadWallpaperData env st = (Ok allData, st') ->
  0 < pageSize ->
  JS.parseInt page' = JS.Num p ->
  1 <= p ->
  listOf (getWallpaperList (Some page') source' (Some (JS.Num pageSize)) env st)
  = window (filterBySource allData source') ((p - 1) * pageSize) pageSize.
Proof.
  intros Hload Hsize Hparse Hp. unfold listOf.
  rewrite (ListFacts.getWallpaperList_loaded _ _ _ _ _ _ _ Hload). cbv zeta.
  rewrite (ParseIntFacts.orElse_nonempty page' "1")
    by (eapply ParseIntFacts.parseInt_Num_nonempty; eassumption).
  rewrite Hparse. simpl JS.isNaN. simpl JS.lt.
  destruct (Z.ltb_spec p 1) as [? | _]; [lia |]. simpl.
  rewrite PagingFacts.slice_window by nia. reflexivity.
Qed.

Lemma skipn_skipn {A : Type} (a b : nat) (l : list A) :
  skipn a (skipn b l) = skipn (b + a) l.
Proof.
  revert l. induction b as [| b IH]; intros l; simpl; [reflexivity |].
  destruct l; [now rewrite skipn_nil | apply IH].
Qed.

(** Consecutive windows of one size put end to end give the list back. *)
Lemma windows_tile {A : Type} (size n : nat) :
  forall l : list A,
    (List.length l <= n * size)%nat ->
    List.concat (map (fun k => firstn size (skipn (k * size) l)) (seq 0 n)) = l.
Proof.
  induction n as [| n IH]; intros l Hlen; simpl.
  - destruct l; [reflexivity | simpl in Hlen; lia].
  - rewrite <- seq_shift, map_map.
    rewrite (map_ext (fun k => firstn size (skipn (S k * size) l))
                     (fun k => firstn size (skipn (k * size) (skipn size l)))).
    + rewrite IH by (rewrite length_skipn; lia). apply firstn_skipn.
    + intros k. rewrite skipn_skipn. reflexivity.
Qed.

(** X8: the pages tile the filtered list.  With a page size above 0 and
    [n] pages that cover the list, the lists of pages 1 to [n], put end
    to end, are the filtered list: no entry is left out, repeated or
    moved; and no page holds more than [pageSize] entries. *)
Theorem getWallpaperList_pages_tile :
  forall (env : Env) (st st' : Store) (allData : list WallpaperItem)
         (source' : option string) (pageSize : Z) (n : nat)
         (pageString : nat -> string),
    loadWallpaperData env st = (Ok allData, st') ->
    0 < pageSize ->
    (forall k, (k < n)%nat -> JS.parseInt (pageString k) = JS.Num (Z.of_nat k + 1)) ->
    Z.of_nat (List.length (filterBySource allData source')) <= Z.of_nat n * pageSize ->
    List.concat (map (fun k =>
                   listOf (getWallpaperList (Some (pageString k)) source'
                                            (Some (JS.Num pageSize)) env st))
                (seq 0 n))
    = filterBySource allData source'
    /\ forall k, (k < n)%nat ->
         Z.of_nat (List.length
                     (listOf (getWallpaperList (Some (pageString k)) source'
                                               (Some (JS.Num pageSize)) env st)))
         <= pageSize.
Proof.
  intros env st st' allData source' pageSize n pageString Hload Hsize Hparse Hcover.
  assert (Hpage : forall k, (k < n)%nat ->
            listOf (getWallpaperList (Some (pageString k)) source'
                                     (Some (JS.Num pageSize)) env st)
            = firstn (Z.to_nat pageSize)
                     (skipn (k * Z.to_nat pageSize) (filterBySource allData source'))).
  { intros k Hk.
    rewrite (page_list env st st' allData source' pageSize (Z.of_nat k + 1) (pageString k)
               Hload Hsize (Hparse k Hk)) by lia.
    unfold window. f_equal. f_equal. nia. }
  split.
  - rewrite (map_ext_in _ (fun k => firstn (Z.to_nat pageSize)
                                      (skipn (k * Z.to_nat pageSize)
                                             (filterBySource allData source')))).
    + apply windows_tile. nia.
    + intros k Hk. apply in_seq in Hk. apply Hpage. lia.
  - intros k Hk. rewrite (Hpage k Hk), length_firstn. lia.
Qed.

Lemma getWallpaperList_pages_tile_witness :
  loadWallpaperData (serving (entries 45) []) initialStore
  = (Ok (entries 45), cached (entries 45))
  /\ 0 < 20
  /\ (forall k, (k < 3)%nat ->
        JS.parseInt (showZ (Z.of_nat k + 1)) = JS.Num (Z.of_nat k + 1))
  /\ Z.of_nat (List.length (filterBySource (entries 45) None)) <= Z.of_nat 3 * 20
  /\ List.concat (map (fun k =>
                    listOf (getWallpaperList (Some (showZ (Z.of_nat k + 1))) None
                                             (Some (JS.Num 20))
                                             (serving (entries 45) []) initialStore))
                 (seq 0 3))
     = filterBySource (entries 45) None.
Proof.
  assert (Hparse : forall k, (k < 3)%nat ->
            JS.parseInt (showZ (Z.of_nat k + 1)) = JS.Num (Z.of_nat k + 1)).
  { intros k Hk. destruct k as [| [| [| k]]]; [reflexivity | reflexivity | reflexivity | lia]. }
  assert (Hcover : Z.of_nat (List.length (filterBySource (entries 45) None))
                   <= Z.of_nat 3 * 20) by (vm_compute; discriminate).
  split; [reflexivity |]. split; [lia |]. split; [exact Hparse |]. split; [exact Hcover |].
  exact (proj1 (getWallpaperList_pages_tile (serving (entries 45) []) initialStore
                  (cached (entries 45)) (entries 45) None 20 3
                  (fun k => showZ (Z.of_nat k + 1)) eq_refl eq_refl Hparse Hcover)).
Defined.

End PageFacts.

Module FilterFacts.
Import WallpaperUtils.

Lemma indexOf_unfold (s p : string) :
  JS.indexOf s p
  = if String.prefix p s then Some O
    else match s with
         | EmptyString => None
         | String _ r => option_map S (JS.indexOf r p)
         end.
Proof. destruct s; reflexivity. Qed.

(** [s.includes(p)] says that [p] occurs somewhere in [s]. *)
Lemma includes_iff (s p : string) :
  JS.includes s p = true <-> exists pre post, s = pre ++ p ++ post.
Proof.
  unfold JS.includes. split.
  - induction s as [| c s IH]; rewrite indexOf_unfold.
    + destruct (String.prefix p "") eqn:Hp; [| discriminate].
      intros _. apply StringFacts.prefix_iff in Hp as [r Hr]. now exists "", r.
    + destruct (String.prefix p (String c s)) eqn:Hp.
      * intros _. apply StringFacts.prefix_iff in Hp as [r Hr]. now exists "", r.
      * destruct (JS.indexOf s p) as [n |]; [| discriminate].
        intros _. destruct (IH eq_refl) as [pre [post ->]].
        now exists (String c pre), post.
  - intros [pre [post ->]]. induction pre as [| c pre IH]; rewrite indexOf_unfold.
    + simpl. now rewrite StringFacts.prefix_append.
    + change (String c pre ++ p ++ post) with (String c (pre ++ p ++ post)).
      destruct (String.prefix p (String c (pre ++ p ++ post))); [reflexivity |].
      destruct (JS.indexOf (pre ++ p ++ post) p); [reflexivity | discriminate].
Qed.

(** X9: the source filter.  An absent or blank [source] keeps the whole
    catalogue.  Any other [source] keeps exactly the entries whose
    [source] field holds it as a substring, both read in lower case; the
    filter string is used as given, surrounding white space included. *)
Theorem filterBySource_spec :
  forall allData : list WallpaperItem,
    filterBySource allData None = allData
    /\ (forall s, JS.trim s = "" -> filterBySource allData (Some s) = allData)
    /\ (forall s, JS.trim s <> "" ->
        forall entry,
          In entry (filterBySource allData (Some s))
          <-> In entry allData
              /\ exists pre post,
                   JS.toLowerCase (source entry) = pre ++ JS.toLowerCase s ++ post).
Proof.
  intros allData. split; [reflexivity |]. split.
  - intros s Hblank. unfold filterBySource. rewrite Hblank. simpl.
    now rewrite andb_false_r.
  - intros s Hne entry. unfold filterBySource.
    assert (Htruthy : JS.truthy (Some s) = true).
    { destruct s; [now destruct Hne | reflexivity]. }
    rewrite Htruthy. destruct (String.eqb_spec (JS.trim s) "") as [E | _]; [contradiction |].
    simpl. rewrite filter_In, includes_iff. reflexivity.
Qed.

(** The filter at work: case does not matter, white space does. *)
Example filterBySource_runs :
  map _id (filterBySource
             [Fixtures.item "1" "Unsplash"; Fixtures.item "2" "Pexels";
              Fixtures.item "3" "unsplash+"]
             (Some "SPLASH"))
  = ["1"; "3"]
  /\ map _id (filterBySource
                [Fixtures.item "1" "Unsplash"; Fixtures.item "2" "Pexels"]
                (Some " unsplash"))
     = []
  /\ map _id (filterBySource
                [Fixtures.item "1" "Unsplash"; Fixtures.item "2" "Pexels"]
                (Some "  "))
     = ["1"; "2"].
Proof. repeat split; reflexivity. Qed.

End FilterFacts.

(* ===================================================================== *)
(** * The running mean of the response times *)
(* ===================================================================== *)

Module MeanFacts.
Import ProxyUtils Stats Timing.





End MeanFacts.

(* ===================================================================== *)
(** * The image-proxy handler: answers and request counts *)
(* ===================================================================== *)

Module HandlerAnswers.
Import Eff FindaphotoProxy ProxyRun.

(** The step every branch of the handler ends with, read at the answer. *)
Ltac answer :=
  unfold throw, Date_now, ret; rewrite HandlerFacts.updateProxyStats_run;
  do 2 eexists; split; [reflexivity |].

(** X11: every answer of the handler carries a valid HTTP status: 200,
    304, or one from 400 to 599.  When the origin answers with a status
    that is neither 304 nor 2xx, the answer repeats that status if it
    lies from 400 to 599 and is 404 otherwise (a 3xx or 1xx status of the
    origin is answered with 404). *)
Theorem handler_status_valid :
  forall (URL_parse : string -> option ProxyUtils.URL) (env : Env)
         (req : Request) (w : World),
  exists (resp : Response) (w' : World),
    handler URL_parse env req w = (Ok resp, w')
    /\ (statusOf resp = 200 \/ statusOf resp = 304 \/ 400 <= statusOf resp < 600)
    /\ (forall response,
          requestPath req <> "" ->
          ProxyUtils.valid
            (ProxyUtils.validateImageUrl URL_parse (originalUrlOf (requestPath req))) = true ->
          fetch env (originalUrlOf (requestPath req)) (fetchHeaders req) = Some response ->
          status response <> 304 ->
          WallpaperUtils.ok (status response) = false ->
          (400 <= status response < 600 -> statusOf resp = status response)
          /\ (~ 400 <= status response < 600 -> statusOf resp = 404)).
Proof.
  intros URL_parse env req w.
  unfold handler, bind, tryCatch. unfold Date_now at 1. cbv beta iota zeta.
  destruct (String.eqb_spec (requestPath req) "") as [Hempty | Hpath].
  { answer. simpl. split; [lia |]. intros; contradiction. }
  destruct (ProxyUtils.valid (ProxyUtils.validateImageUrl URL_parse _)) eqn:Hvalid;
    cbn [negb].
  2: { answer. simpl. split; [lia |]. intros ? _ H; discriminate H. }
  destruct (fetch env _ _) as [response |] eqn:Hfetch.
  2: { answer. simpl. split; [lia |]. intros ? _ _ H; discriminate H. }
  unfold ret at 1. cbv beta iota.
  destruct (Z.eqb_spec (status response) 304) as [H304 | H304].
  { answer. simpl. split; [lia |]. intros ? _ _ H; injection H as <-. contradiction. }
  destruct (WallpaperUtils.ok (status response)) eqn:Hok; cbn [negb].
  2: { answer. simpl.
       destruct (Z.leb_spec 400 (status response)) as [Hlo | Hlo];
         destruct (Z.ltb_spec (status response) 600) as [Hhi | Hhi];
         simpl; (split; [lia |]); intros ? _ _ Hf _ _; injection Hf as <-; split; intros; lia. }
  destruct (body response) as [image |] eqn:Hbody.
  2: { answer. simpl. split; [lia |]. intros ? _ _ H _ H'; injection H as <-. congruence. }
  unfold ret at 1. cbv beta iota. unfold lift at 1.
  destruct (headersBeforeTiming _ response) as [h1 | e1] eqn:Hh1.
  2: { answer. simpl. split; [lia |]. intros ? _ _ H _ H'; injection H as <-. congruence. }
  unfold Date_now at 1. cbv beta iota. unfold lift at 1. cbn [reads].
  destruct (headersFromTiming URL_parse _ _ h1) as [h2 | e2] eqn:Hh2.
  2: { answer. simpl. split; [lia |]. intros ? _ _ H _ H'; injection H as <-. congruence. }
  answer. simpl. split; [lia |]. intros ? _ _ H _ H'; injection H as <-. congruence.
Qed.

(** X12: a request without a path, or with a path that does not
    validate, is answered with status 400 without asking the origin: the
    answer and the statistics are the same whatever the origin would do. *)
Theorem handler_rejects_before_fetch :
  forall (URL_parse : string -> option ProxyUtils.URL) (env env' : Env)
         (req : Request) (w : World),
    (forall n, clock env n = clock env' n) ->
    requestPath req = ""
    \/ ProxyUtils.valid
         (ProxyUtils.validateImageUrl URL_parse (originalUrlOf (requestPath req))) = false ->
    exists (resp : Response) (w' : World),
      handler URL_parse env req w = (Ok resp, w')
      /\ handler URL_parse env' req w = (Ok resp, w')
      /\ statusOf resp = 400.
Proof.
  intros URL_parse env env' req w Hclock Hbad.
  unfold handler, bind, tryCatch. unfold Date_now at 1 3. cbv beta iota zeta.
  destruct (String.eqb_spec (requestPath req) "") as [Hempty | Hpath].
  { unfold throw, Date_now, ret. rewrite !HandlerFacts.updateProxyStats_run.
    cbn [reads proxyStats updates]. rewrite !Hclock.
    do 2 eexists. split; [reflexivity |]. split; reflexivity. }
  destruct Hbad as [? | Hinvalid]; [contradiction |].
  rewrite Hinvalid. cbn [negb].
  unfold throw, Date_now, ret. rewrite !HandlerFacts.updateProxyStats_run.
  cbn [reads proxyStats updates]. rewrite !Hclock.
  do 2 eexists. split; [reflexivity |]. split; reflexivity.
Qed.

Lemma handler_rejects_before_fetch_witness :
  (forall n, clock unreachable n = clock (answering (originAnswer 200 (Some []))) n)
  /\ ProxyUtils.valid
       (ProxyUtils.validateImageUrl PlainUrl.read
          (originalUrlOf (requestPath (get "bigLink/notes.txt")))) = false
  /\ exists (resp : Response) (w' : World),
      handler PlainUrl.read unreachable (get "bigLink/notes.txt") freshWorld = (Ok resp, w')
      /\ handler PlainUrl.read (answering (originAnswer 200 (Some [])))
                 (get "bigLink/notes.txt") freshWorld
         = (Ok resp, w')
      /\ statusOf resp = 400.
Proof.
  assert (Hclock : forall n,
             clock unreachable n = clock (answering (originAnswer 200 (Some []))) n)
    by reflexivity.
  assert (Hbad : ProxyUtils.valid
                   (ProxyUtils.validateImageUrl PlainUrl.read
                      (originalUrlOf (requestPath (get "bigLink/notes.txt")))) = false)
    by reflexivity.
  exact (conj Hclock (conj Hbad
           (handler_rejects_before_fetch PlainUrl.read unreachable
              (answering (originAnswer 200 (Some []))) (get "bigLink/notes.txt") freshWorld
              Hclock (or_intror Hbad)))).
Defined.

(** X13: the statistics count requests.  After the handler has served
    any sequence of requests, whatever the origin did, [totalRequests]
    has grown by the number of requests, and the store still has
    [successfulRequests + failedRequests = totalRequests] and
    [cacheHits <= successfulRequests]. *)
Theorem serve_counts_requests :
  forall (URL_parse : string -> option ProxyUtils.URL)
         (visits : list (Env * Request)) (w : World),
    Stats.balanced (proxyStats w) ->
    Stats.hitsWithinSuccesses (proxyStats w) ->
    ProxyUtils.totalRequests (proxyStats (serve URL_parse visits w))
    = ProxyUtils.totalRequests (proxyStats w) + Z.of_nat (List.length visits)
    /\ Stats.balanced (proxyStats (serve URL_parse visits w))
    /\ Stats.hitsWithinSuccesses (proxyStats (serve URL_parse visits w)).
Proof.
  intros URL_parse visits. induction visits as [| [env req] visits IH]; intros w Hbal Hhits.
  - simpl. split; [lia |]. split; assumption.
  - simpl serve.
    destruct (HandlerFacts.handler_hit_is_success URL_parse env req w)
      as [resp [w' [success [fromCache [elapsed [stamp [Hrun [_ [Hstats Himp]]]]]]]]].
    rewrite Hrun. simpl snd.
    assert (Hbal' : Stats.balanced (proxyStats w')).
    { rewrite Hstats.
      exact (StatsFacts.balanced_apply (Stats.Update stamp success elapsed fromCache) _ Hbal). }
    assert (Hhits' : Stats.hitsWithinSuccesses (proxyStats w')).
    { rewrite Hstats.
      apply (StatsFacts.hitsWithinSuccesses_after
               [Stats.Update stamp success elapsed fromCache] (proxyStats w) Hhits).
      simpl. now rewrite Himp. }
    destruct (IH w' Hbal' Hhits') as [Hcount [Hb Hh]].
    split; [| split; assumption].
    rewrite Hcount, Hstats. simpl. lia.
Qed.

Lemma serve_counts_requests_witness :
  Stats.balanced (proxyStats freshWorld)
  /\ Stats.hitsWithinSuccesses (proxyStats freshWorld)
  /\ ProxyUtils.totalRequests
       (proxyStats (serve PlainUrl.read
                          [(answering (originAnswer 304 None), get "bigLink/17021.jpg");
                           (unreachable, get "bigLink/17021.jpg");
                           (unreachable, get "")]
                          freshWorld))
     = ProxyUtils.totalRequests (proxyStats freshWorld) + Z.of_nat 3.
Proof.
  assert (Hbal : Stats.balanced (proxyStats freshWorld)) by (unfold Stats.balanced; simpl; lia).
  assert (Hhits : Stats.hitsWithinSuccesses (proxyStats freshWorld))
    by (unfold Stats.hitsWithinSuccesses; simpl; lia).
  exact (conj Hbal (conj Hhits
           (proj1 (serve_counts_requests PlainUrl.read
                     [(answering (originAnswer 304 None), get "bigLink/17021.jpg");
                      (unreachable, get "bigLink/17021.jpg");
                      (unreachable, get "")]
                     freshWorld Hbal Hhits)))).
Defined.

End HandlerAnswers.

(* ===================================================================== *)
(** * Proxy URLs: what is converted, batches, cache keys *)
(* ===================================================================== *)

Module UrlFacts.
Import ProxyUtils ProxyUrls Text.

Lemma takeDots_split (s : string) :
  noLineTerminator (RegExp.takeDots s) = true
  /\ exists rest, s = RegExp.takeDots s ++ rest.
Proof.
  unfold noLineTerminator. induction s as [| c s [IH1 [rest IH2]]]; simpl.
  - split; [reflexivity | now exists ""].
  - destruct (JS.isLineTerminator c) eqn:Hc; simpl.
    + split; [reflexivity | now exists (String c s)].
    + rewrite Hc, IH1. split; [reflexivity |]. exists rest. now rewrite <- IH2.
Qed.

(** What the pattern [literal(.+)] captures stands in the subject right
    after an occurrence of [literal], is not empty and holds no line
    terminator. *)
Lemma execLiteralGroup_sound (literal s g : string) :
  RegExp.execLiteralGroup literal s = Some g ->
  g <> "" /\ noLineTerminator g = true
  /\ exists pre post, s = pre ++ literal ++ g ++ post.
Proof.
  induction s as [| c s IH]; rewrite ConvertFacts.execLiteralGroup_unfold.
  - destruct (String.prefix literal "") eqn:Hp.
    + apply StringFacts.prefix_iff in Hp as [r Hr].
      destruct literal; [| discriminate]. simpl in Hr. subst r. simpl. discriminate.
    + discriminate.
  - destruct (String.prefix literal (String c s)) eqn:Hp.
    + apply StringFacts.prefix_iff in Hp as [r Hr]. rewrite Hr.
      rewrite StringFacts.substringFrom_append.
      destruct (takeDots_split r) as [Hdots [rest Hrest]].
      destruct (RegExp.takeDots r) as [| d t] eqn:Ht.
      * rewrite <- Hr. intros H. destruct (IH H) as [Hne [Hnl [pre [post ->]]]].
        split; [exact Hne |]. split; [exact Hnl |]. now exists (String c pre), post.
      * intros H. injection H as <-. split; [discriminate |]. split; [exact Hdots |].
        exists "", rest. simpl. f_equal. exact Hrest.
    + intros H. destruct (IH H) as [Hne [Hnl [pre [post ->]]]].
      split; [exact Hne |]. split; [exact Hnl |]. now exists (String c pre), post.
Qed.

(** X14: [convertToProxyUrl] converts nothing but URLs that parse, whose
    host name is [originalDomain] and whose path holds a segment
    [/wallpaper/] followed by at least one character; the proxy URL is
    [baseUrl + proxyPath + "/"] followed by what comes after that
    segment.  Query and fragment of the original URL are not carried
    over, and the segment need not open the path. *)
Theorem convertToProxyUrl_sound :
  forall (URL_parse : string -> option URL) (config : ProxyConfig)
         (originalUrl proxyUrl' : string),
    convertToProxyUrl URL_parse originalUrl config = Some proxyUrl' ->
    exists (url : URL) (pre path post : string),
      URL_parse originalUrl = Some url
      /\ hostname url = originalDomain config
      /\ pathname url = pre ++ "/wallpaper/" ++ path ++ post
      /\ path <> ""
      /\ noLineTerminator path = true
      /\ proxyUrl' = baseUrl config ++ proxyPath config ++ "/" ++ path.
Proof.
  intros URL_parse config originalUrl proxyUrl' H. unfold convertToProxyUrl in H.
  destruct (URL_parse originalUrl) as [url |]; [| discriminate].
  destruct (String.eqb_spec (hostname url) (originalDomain config)) as [Hhost | _];
    [| discriminate].
  simpl in H.
  destruct (RegExp.execLiteralGroup "/wallpaper/" (pathname url)) as [path |] eqn:Hmatch;
    [| discriminate].
  injection H as <-.
  destruct (execLiteralGroup_sound _ _ _ Hmatch) as [Hne [Hnl [pre [post Hpath]]]].
  exists url, pre, path, post. repeat split; try assumption; reflexivity.
Qed.

Lemma convertToProxyUrl_sound_witness :
  convertToProxyUrl PlainUrl.read
    "https://infinitypro-img.infinitynewtab.com/v2/wallpaper/bigLink/17021.jpg"
    DEFAULT_PROXY_CONFIG
  = Some "https://your-domain.vercel.app/api/wallpaper/bigLink/17021.jpg"
  /\ exists (url : URL) (pre path post : string),
      PlainUrl.read "https://infinitypro-img.infinitynewtab.com/v2/wallpaper/bigLink/17021.jpg"
      = Some url
      /\ hostname url = originalDomain DEFAULT_PROXY_CONFIG
      /\ pathname url = pre ++ "/wallpaper/" ++ path ++ post
      /\ path <> ""
      /\ noLineTerminator path = true
      /\ "https://your-domain.vercel.app/api/wallpaper/bigLink/17021.jpg"
         = baseUrl DEFAULT_PROXY_CONFIG ++ proxyPath DEFAULT_PROXY_CONFIG ++ "/" ++ path.
Proof.
  split; [reflexivity |].
  apply (convertToProxyUrl_sound PlainUrl.read DEFAULT_PROXY_CONFIG
           "https://infinitypro-img.infinitynewtab.com/v2/wallpaper/bigLink/17021.jpg").
  reflexivity.
Defined.

(** A converted URL parses and lies on [originalDomain]. *)
Lemma convertToProxyUrl_sound_parts URL_parse config originalUrl proxyUrl' :
  convertToProxyUrl URL_parse originalUrl config = Some proxyUrl' ->
  exists url, URL_parse originalUrl = Some url /\ hostname url = originalDomain config.
Proof.
  unfold convertToProxyUrl. intros H.
  destruct (URL_parse originalUrl) as [url |]; [| discriminate].
  destruct (String.eqb_spec (hostname url) (originalDomain config)) as [Hhost | _];
    [| discriminate].
  now exists url.
Qed.

(** A converted URL is never the empty string. *)
Lemma convertToProxyUrl_nonempty URL_parse config originalUrl proxyUrl' :
  convertToProxyUrl URL_parse originalUrl config = Some proxyUrl' -> proxyUrl' <> "".
Proof.
  unfold convertToProxyUrl. intros H.
  destruct (URL_parse originalUrl) as [url |]; [| discriminate].
  destruct (String.eqb (hostname url) (originalDomain config)); [| discriminate].
  simpl in H.
  destruct (RegExp.execLiteralGroup "/wallpaper/" (pathname url)) as [path |];
    [| discriminate].
  injection H as <-.
  destruct (baseUrl config), (proxyPath config); discriminate.
Qed.

(** X15: [batchConvertUrls] answers with as many items as it is given,
    in the same order; it changes neither [rawSrc] nor any other member
    it copies, leaves an item without [src] or without a non-empty
    [rawSrc] as it is, and gives an item a [proxyUrl] only when its
    [rawSrc] parses as a URL on [originalDomain]. *)
Theorem batchConvertUrls_spec :
  forall (A B : Type) (URL_parse : string -> option URL)
         (items : list (Item A B)) (config : ProxyConfig),
    Forall2
      (fun item out =>
         item_rest out = item_rest item
         /\ option_map rawSrc (src out) = option_map rawSrc (src item)
         /\ option_map src_rest (src out) = option_map src_rest (src item)
         /\ (JS.truthy (match src item with Some s => rawSrc s | None => None end) = false ->
             out = item)
         /\ (forall s raw,
               src item = Some s -> rawSrc s = Some raw -> raw <> "" ->
               forall o v,
                 src out = Some o -> proxyUrl o = Some v ->
                 convertToProxyUrl URL_parse raw config = Some v
                 /\ exists url, URL_parse raw = Some url
                                /\ hostname url = originalDomain config))
      items (batchConvertUrls URL_parse items config).
Proof.
  intros A B URL_parse items config. unfold batchConvertUrls.
  induction items as [| item items IH]; simpl; constructor; [| exact IH].
  destruct item as [[[raw pu rest] |] irest]; simpl.
  - destruct (JS.truthy raw) eqn:Ht; simpl.
    + split; [reflexivity |]. split; [reflexivity |]. split; [reflexivity |].
      split; [discriminate |].
      intros s raw' Hs Hraw Hne o v Ho Hv.
      injection Hs as <-. simpl in Hraw. subst raw. injection Ho as <-.
      destruct raw' as [| c0 r0]; [now destruct Hne |]. simpl in Hv.
      destruct (convertToProxyUrl URL_parse (String c0 r0) config) as [c |] eqn:Hc;
        [| discriminate].
      destruct (JS.truthy (Some c)); [| discriminate]. injection Hv as <-.
      split; [reflexivity |].
      destruct (convertToProxyUrl_sound_parts URL_parse config _ c Hc) as [url [H1 H2]].
      now exists url.
    + split; [reflexivity |]. split; [reflexivity |]. split; [reflexivity |].
      split; [reflexivity |].
      intros s raw' Hs Hraw Hne. injection Hs as <-. simpl in Hraw. subst raw.
      destruct raw'; [now destruct Hne | discriminate].
  - split; [reflexivity |]. split; [reflexivity |]. split; [reflexivity |].
    split; [reflexivity |]. intros s raw Hs. discriminate Hs.
Qed.

(** ** Cache keys *)

Lemma utf8_append (a b : string) : utf8 (a ++ b) = (utf8 a ++ utf8 b)%list.
Proof.
  induction a as [| c a IH]; simpl; [reflexivity |].
  destruct (JS.code c <? 128); simpl; now rewrite IH.
Qed.

(** Whole groups of three bytes are encoded on their own. *)
Lemma base64_append (k : nat) :
  forall p r : list Z,
    List.length p = (3 * k)%nat ->
    base64 (p ++ r) = base64 p ++ base64 r
    /\ String.length (base64 p) = (4 * k)%nat.
Proof.
  induction k as [| k IH]; intros p r Hlen.
  - destruct p; [split; reflexivity | discriminate].
  - destruct p as [| a [| b [| c p]]]; try (simpl in Hlen; lia).
    destruct (IH p r ltac:(simpl in Hlen; lia)) as [Happ Hlen'].
    change (base64 ((a :: b :: c :: p) ++ r))
      with (String (base64Char (a / 4))
              (String (base64Char ((a mod 4) * 16 + b / 16))
                 (String (base64Char ((b mod 16) * 4 + c / 64))
                    (String (base64Char (c mod 64)) (base64 (p ++ r)))))).
    change (base64 (a :: b :: c :: p))
      with (String (base64Char (a / 4))
              (String (base64Char ((a mod 4) * 16 + b / 16))
                 (String (base64Char ((b mod 16) * 4 + c / 64))
                    (String (base64Char (c mod 64)) (base64 p))))).
    rewrite Happ. split; [reflexivity |]. simpl String.length. rewrite Hlen'. lia.
Qed.

Lemma substring_prefix (x y : string) :
  String.substring 0 (String.length x) (x ++ y) = x.
Proof.
  induction x as [| c x IH]; simpl.
  - now destruct y.
  - now rewrite IH.
Qed.

(** X16: the cache key reads the first 24 bytes of the path and nothing
    else.  Two URLs whose paths share their first 24 bytes get the same
    key, whatever follows in the path and whatever their hosts, queries
    and fragments are. *)
Theorem buildCacheKey_first_24_bytes :
  forall (URL_parse : string -> option URL) (now now' : Z) (url1 url2 : string)
         (u1 u2 : URL) (common rest1 rest2 : string),
    URL_parse url1 = Some u1 ->
    URL_parse url2 = Some u2 ->
    pathname u1 = common ++ rest1 ->
    pathname u2 = common ++ rest2 ->
    List.length (utf8 common) = 24%nat ->
    buildCacheKey URL_parse now url1 = buildCacheKey URL_parse now' url2
    /\ buildCacheKey URL_parse now url1 = "img_" ++ base64 (utf8 common).
Proof.
  intros URL_parse now now' url1 url2 u1 u2 common rest1 rest2 H1 H2 Hp1 Hp2 Hlen.
  assert (Hkey : forall rest,
            String.substring 0 32 (base64 (utf8 (common ++ rest))) = base64 (utf8 common)).
  { intros rest. rewrite utf8_append.
    destruct (base64_append 8 (utf8 common) (utf8 rest) Hlen) as [Happ Hl].
    rewrite Happ. change 32%nat with (4 * 8)%nat. rewrite <- Hl. apply substring_prefix. }
  unfold buildCacheKey. rewrite H1, H2, Hp1, Hp2, !Hkey. split; reflexivity.
Qed.

Lemma buildCacheKey_first_24_bytes_witness :
  PlainUrl.read "https://infinitypro-img.infinitynewtab.com/wallpaper/bigLink/17021.jpg"
  = Some {| protocol := "https:"; hostname := "infinitypro-img.infinitynewtab.com";
            pathname := "/wallpaper/bigLink/17021" ++ ".jpg" |}
  /\ PlainUrl.read "https://example.com/wallpaper/bigLink/170219/other.png"
     = Some {| protocol := "https:"; hostname := "example.com";
               pathname := "/wallpaper/bigLink/17021" ++ "9/other.png" |}
  /\ List.length (utf8 "/wallpaper/bigLink/17021") = 24%nat
  /\ buildCacheKey PlainUrl.read 1
       "https://infinitypro-img.infinitynewtab.com/wallpaper/bigLink/17021.jpg"
     = buildCacheKey PlainUrl.read 2
         "https://example.com/wallpaper/bigLink/170219/other.png".
Proof.
  split; [reflexivity |]. split; [reflexivity |]. split; [reflexivity |].
  exact (proj1 (buildCacheKey_first_24_bytes PlainUrl.read 1 2
                  "https://infinitypro-img.infinitynewtab.com/wallpaper/bigLink/17021.jpg"
                  "https://example.com/wallpaper/bigLink/170219/other.png"
                  _ _ "/wallpaper/bigLink/17021" ".jpg" "9/other.png"
                  eq_refl eq_refl eq_refl eq_refl eq_refl)).
Defined.

(** ** Optimized URLs *)

Lemma queryString_empty (params : list (string * string)) :
  queryString params = "" -> params = [].
Proof.
  destruct params as [| [k v] [| kv rest]]; [reflexivity | |]; simpl; intros H.
  - destruct k; discriminate.
  - destruct k; discriminate.
Qed.

Lemma setNumber_nil (key : string) (n : option Z) (params : list (string * string)) :
  setNumber key n params = [] <-> params = [] /\ truthyNumber n = false.
Proof.
  unfold setNumber, truthyNumber. destruct n as [z |].
  - destruct (negb (z =? 0)).
    + split; [intros H; now destruct params | intros [_ H]; discriminate H].
    + tauto.
  - tauto.
Qed.

Lemma length_append (a b : string) :
  String.length (a ++ b) = (String.length a + String.length b)%nat.
Proof. induction a as [| c a IH]; simpl; [reflexivity | now rewrite IH]. Qed.

Lemma append_not_self (a b : string) : b <> "" -> a ++ b <> a.
Proof.
  intros Hb H. apply (f_equal String.length) in H.
  rewrite length_append in H. destruct b; [congruence | simpl in H; lia].
Qed.

(** X17: [buildOptimizedUrl] always answers with a URL: the original one
    when it cannot be converted, else the proxy URL, followed by a query
    exactly when an option is set to a value that is not 0; a width,
    height or quality of 0 is dropped like an absent one. *)
Theorem buildOptimizedUrl_spec :
  forall (URL_parse : string -> option URL) (originalUrl : string)
         (optimization : ImageOptimization) (config : ProxyConfig),
    (convertToProxyUrl URL_parse originalUrl config = None ->
     buildOptimizedUrl URL_parse originalUrl optimization config = originalUrl)
    /\ (forall proxyUrl',
          convertToProxyUrl URL_parse originalUrl config = Some proxyUrl' ->
          (buildOptimizedUrl URL_parse originalUrl optimization config = proxyUrl'
           <-> truthyNumber (width optimization) = false
               /\ truthyNumber (height optimization) = false
               /\ truthyNumber (quality optimization) = false
               /\ format optimization = None)
          /\ exists query,
               buildOptimizedUrl URL_parse originalUrl optimization config
               = proxyUrl' ++ query
               /\ (query = "" \/ exists q, query = "?" ++ q)).
Proof.
  intros URL_parse originalUrl optimization config. unfold buildOptimizedUrl. split.
  - intros ->. reflexivity.
  - intros proxyUrl' Hc. rewrite Hc.
    assert (Hne : exists c r, proxyUrl' = String c r).
    { destruct proxyUrl' as [| c r]; [| eauto].
      now apply convertToProxyUrl_nonempty in Hc. }
    destruct Hne as [c [r ->]]. cbv zeta.
    set (params := match format optimization with
                   | Some f => (_ ++ [("f", formatName f)])%list
                   | None => _
                   end).
    assert (Hnil : params = [] <->
                   truthyNumber (width optimization) = false
                   /\ truthyNumber (height optimization) = false
                   /\ truthyNumber (quality optimization) = false
                   /\ format optimization = None).
    { unfold params. destruct (format optimization) as [f |].
      - split; [intros H; now destruct (setNumber "q" _ _) | intros [_ [_ [_ H]]]; discriminate H].
      - rewrite !setNumber_nil. tauto. }
    destruct (queryString params) as [| d q] eqn:Hq.
    + apply queryString_empty in Hq. split.
      * split; [intros _; apply Hnil, Hq | reflexivity].
      * exists "". rewrite StringFacts.append_nil_r. auto.
    + split.
      * split.
        -- intros H. exfalso. revert H. apply append_not_self. discriminate.
        -- intros H. apply Hnil in H. rewrite H in Hq. discriminate Hq.
      * exists ("?" ++ String d q). split; [reflexivity |]. right. now exists (String d q).
Qed.

End UrlFacts.


(* ===================================================================== *)
(** * File names and extensions *)
(* ===================================================================== *)

Module SegmentFacts.
Import Segments Text.

Lemma pop_snoc {A : Type} (init : list A) (x : A) : JS.pop (init ++ [x]) = Some x.
Proof. unfold JS.pop. now rewrite rev_unit. Qed.

Lemma mapLast_snoc {A : Type} (f : A -> A) (init : list A) (x : A) :
  mapLast f (init ++ [x]) = (init ++ [f x])%list.
Proof.
  induction init as [| y init IH]; [reflexivity |].
  simpl. rewrite IH. destruct (init ++ [x])%list eqn:E; [| reflexivity].
  now destruct init.
Qed.

Lemma pop_mapLast {A : Type} (f : A -> A) (l : list A) :
  JS.pop (mapLast f l) = option_map f (JS.pop l).
Proof.
  destruct l as [| y l]; [reflexivity |].
  destruct (exists_last (l := y :: l) ltac:(discriminate)) as [init [x ->]].
  now rewrite mapLast_snoc, !pop_snoc.
Qed.

Lemma split_nonempty (s : string) (sep : ascii) : JS.split s sep <> [].
Proof.
  destruct s as [| c s]; simpl; [discriminate |].
  destruct (JS.split s sep); [discriminate |]. destruct (Ascii.eqb c sep); discriminate.
Qed.

Lemma split_without (s : string) (sep : ascii) :
  without sep s = true -> JS.split s sep = [s].
Proof.
  unfold without. induction s as [| c s IH]; simpl; [reflexivity |].
  intros H. apply andb_true_iff in H as [Hc Hs]. rewrite (IH Hs).
  apply negb_true_iff in Hc. now rewrite Hc.
Qed.

(** Text without separator, put after [s], goes into the last segment. *)
Lemma split_append_without (s t : string) (sep : ascii) :
  without sep t = true ->
  JS.split (s ++ t) sep = mapLast (fun w => w ++ t) (JS.split s sep).
Proof.
  intros Ht. induction s as [| c s IH].
  - simpl. now rewrite (split_without t sep Ht).
  - change (JS.split (String c s ++ t) sep)
      with (match JS.split (s ++ t) sep with
            | [] => [String c EmptyString]
            | w :: ws => if Ascii.eqb c sep then EmptyString :: w :: ws
                         else String c w :: ws
            end).
    change (JS.split (String c s) sep)
      with (match JS.split s sep with
            | [] => [String c EmptyString]
            | w :: ws => if Ascii.eqb c sep then EmptyString :: w :: ws
                         else String c w :: ws
            end).
    rewrite IH. pose proof (split_nonempty s sep) as Hne.
    destruct (JS.split s sep) as [| w [| x ws]]; [congruence | |].
    + simpl. destruct (Ascii.eqb c sep); reflexivity.
    + change (mapLast (fun w0 => w0 ++ t) (w :: x :: ws))
        with (w :: mapLast (fun w0 => w0 ++ t) (x :: ws)).
      destruct (Ascii.eqb c sep); reflexivity.
Qed.

(** A string that ends in the separator ends in an empty segment. *)
Lemma split_trailing_sep (s : string) (sep : ascii) :
  exists init, init <> [] /\ JS.split (s ++ String sep "") sep = (init ++ [""])%list.
Proof.
  induction s as [| c s [init [Hne IH]]].
  - exists [""]. split; [discriminate |]. simpl. now rewrite Ascii.eqb_refl.
  - change (JS.split (String c s ++ String sep "") sep)
      with (match JS.split (s ++ String sep "") sep with
            | [] => [String c EmptyString]
            | w :: ws => if Ascii.eqb c sep then EmptyString :: w :: ws
                         else String c w :: ws
            end).
    rewrite IH. destruct init as [| i0 init]; [congruence |]. simpl.
    destruct (Ascii.eqb c sep).
    + exists ("" :: i0 :: init). split; [discriminate | reflexivity].
    + exists (String c i0 :: init). split; [discriminate | reflexivity].
Qed.

(** The last segment is what follows the last separator. *)
Lemma pop_split_after_sep (a b : string) (sep : ascii) :
  without sep b = true ->
  JS.pop (JS.split (a ++ String sep b) sep) = Some b.
Proof.
  intros Hb.
  replace (a ++ String sep b) with ((a ++ String sep "") ++ b)
    by (now rewrite StringFacts.append_assoc).
  rewrite (split_append_without _ b sep Hb), pop_mapLast.
  destruct (split_trailing_sep a sep) as [init [_ ->]].
  now rewrite pop_snoc.
Qed.

Lemma pop_split_some (s : string) (sep : ascii) : exists w, JS.pop (JS.split s sep) = Some w.
Proof.
  pose proof (split_nonempty s sep) as Hne.
  destruct (exists_last Hne) as [init [x ->]]. exists x. apply pop_snoc.
Qed.

(** Lower-casing turns no other character into a dot or a slash. *)
Lemma toLowerCaseChar_dot (c : ascii) : JS.toLowerCaseChar c = "."%char -> c = "."%char.
Proof.
  destruct c as [[] [] [] [] [] [] [] []]; vm_compute; intros H;
    first [reflexivity | discriminate H].
Qed.

(** A string whose lower-case form is free of a separator that
    lower-casing leaves alone is free of it. *)
Lemma without_toLowerCase (sep : ascii) (s : string) :
  JS.toLowerCaseChar sep = sep ->
  without sep (JS.toLowerCase s) = true -> without sep s = true.
Proof.
  intros Hsep. unfold without. induction s as [| c s IH]; simpl; [reflexivity |].
  intros H. apply andb_true_iff in H as [Hc Hs]. rewrite (IH Hs), andb_true_r.
  apply negb_true_iff. apply negb_true_iff in Hc.
  destruct (Ascii.eqb_spec c sep) as [-> | Hne]; [| reflexivity].
  rewrite Hsep, Ascii.eqb_refl in Hc. discriminate Hc.
Qed.

End SegmentFacts.

Module MetadataFacts.
Import ProxyUtils Segments Text.

Lemma toLowerCase_nonempty (s : string) : s <> "" -> JS.toLowerCase s <> "".
Proof. destruct s; [congruence | discriminate]. Qed.

Lemma without_append (sep : ascii) (a b : string) :
  without sep (a ++ b) = without sep a && without sep b.
Proof.
  unfold without. induction a as [| c a IH]; simpl; [reflexivity |].
  now rewrite IH, andb_assoc.
Qed.

(** The metadata of a path whose last segment is [name]. *)
Lemma generateImageMetadata_of_name URL_parse url u pre name :
  URL_parse url = Some u ->
  pathname u = pre ++ String "/"%char name ->
  without "/"%char name = true ->
  generateImageMetadata URL_parse url
  = let filename' := JS.orElse (Some name) "image" in
    let extension' :=
      JS.orElse (option_map JS.toLowerCase (JS.pop (JS.split filename' "."%char))) "jpg" in
    Some {| filename := filename'; extension := extension';
            mimeType := getMimeType extension';
            isSupported :=
              existsb (String.eqb extension') ["jpg"; "jpeg"; "png"; "webp"; "gif"] |}.
Proof.
  intros Hparse Hpath Hname. unfold generateImageMetadata.
  now rewrite Hparse, Hpath, (SegmentFacts.pop_split_after_sep pre name "/"%char Hname).
Qed.

(** The metadata of a path that ends in [.x]. *)
Lemma generateImageMetadata_of_extension URL_parse url u pre x :
  URL_parse url = Some u ->
  pathname u = pre ++ String "."%char x ->
  x <> "" ->
  without "."%char x = true ->
  without "/"%char x = true ->
  exists name,
    generateImageMetadata URL_parse url
    = Some {| filename := name; extension := JS.toLowerCase x;
              mimeType := getMimeType (JS.toLowerCase x);
              isSupported :=
                existsb (String.eqb (JS.toLowerCase x)) ["jpg"; "jpeg"; "png"; "webp"; "gif"] |}.
Proof.
  intros Hparse Hpath Hne Hdot Hslash.
  destruct (SegmentFacts.pop_split_some pre "/"%char) as [w Hw].
  assert (Hname : JS.pop (JS.split (pathname u) "/"%char) = Some (w ++ String "."%char x)).
  { rewrite Hpath.
    rewrite (SegmentFacts.split_append_without pre (String "."%char x) "/"%char)
      by (unfold without in *; simpl; exact Hslash).
    now rewrite SegmentFacts.pop_mapLast, Hw. }
  assert (Hfile : JS.orElse (Some (w ++ String "."%char x)) "image" = w ++ String "."%char x).
  { apply ParseIntFacts.orElse_nonempty. destruct w; discriminate. }
  assert (Hext : JS.orElse (option_map JS.toLowerCase
                              (JS.pop (JS.split (w ++ String "."%char x) "."%char))) "jpg"
                 = JS.toLowerCase x).
  { rewrite (SegmentFacts.pop_split_after_sep w x "."%char Hdot).
    apply (ParseIntFacts.orElse_nonempty (JS.toLowerCase x) "jpg").
    apply toLowerCase_nonempty, Hne. }
  exists (w ++ String "."%char x).
  unfold generateImageMetadata. rewrite Hparse, Hname, Hfile. cbv zeta. now rewrite Hext.
Qed.

(** X18: a URL that [validateImageUrl] accepts always has metadata, and
    its extension is one of the six accepted ones, in lower case; the
    MIME type is the one of that extension.  [isSupported] is true for
    five of them and false for [bmp], which the validation accepts. *)
Theorem generateImageMetadata_of_valid_url :
  forall (URL_parse : string -> option URL) (url : string),
    valid (validateImageUrl URL_parse url) = true ->
    exists m : ImageMetadata,
      generateImageMetadata URL_parse url = Some m
      /\ In (String "."%char (extension m)) [".jpg"; ".jpeg"; ".png"; ".webp"; ".gif"; ".bmp"]
      /\ isSupported m = negb (extension m =? "bmp")%string
      /\ mimeType m
         = (if (extension m =? "jpg")%string || (extension m =? "jpeg")%string
            then "image/jpeg" else "image/" ++ extension m).
Proof.
  intros URL_parse url Hvalid.
  rewrite ValidateFacts.validateImageUrl_cases in Hvalid.
  destruct (URL_parse url) as [u |] eqn:Hparse; [| discriminate].
  destruct (existsb (String.eqb (protocol u)) _); [| discriminate].
  destruct (existsb _ validExtensions) eqn:Hext; [| discriminate].
  apply ValidateFacts.extension_check in Hext as [ext [Hin [pre [suf [Hpath Hlow]]]]].
  assert (Hcase : forall x,
            ext = String "."%char x -> JS.toLowerCase x = x -> x <> "" ->
            without "."%char x = true -> without "/"%char x = true ->
            exists name,
              generateImageMetadata URL_parse url
              = Some {| filename := name; extension := x; mimeType := getMimeType x;
                        isSupported :=
                          existsb (String.eqb x) ["jpg"; "jpeg"; "png"; "webp"; "gif"] |}).
  { intros x -> Hx Hne Hdot Hslash. simpl in Hlow. rewrite Hx in Hlow.
    destruct suf as [| c0 e]; [discriminate |]. simpl in Hlow. injection Hlow as Hc0 He.
    apply SegmentFacts.toLowerCaseChar_dot in Hc0. subst c0.
    destruct (generateImageMetadata_of_extension URL_parse url u pre e Hparse Hpath)
      as [name Hm].
    - intros ->. simpl in He. congruence.
    - apply SegmentFacts.without_toLowerCase; [reflexivity | now rewrite He].
    - apply SegmentFacts.without_toLowerCase; [reflexivity | now rewrite He].
    - exists name. now rewrite Hm, He. }
  simpl in Hin.
  destruct Hin as [<- | [<- | [<- | [<- | [<- | [<- | []]]]]]];
    (edestruct Hcase as [name Hm];
     [reflexivity | reflexivity | discriminate | reflexivity | reflexivity |]);
    eexists; (split; [exact Hm |]); simpl; (split; [tauto |]); split; reflexivity.
Qed.

Lemma generateImageMetadata_of_valid_url_witness :
  valid (validateImageUrl PlainUrl.read "https://example.com/findaphoto/bigLink/17021.BMP")
  = true
  /\ exists m : ImageMetadata,
      generateImageMetadata PlainUrl.read "https://example.com/findaphoto/bigLink/17021.BMP"
      = Some m
      /\ In (String "."%char (extension m)) [".jpg"; ".jpeg"; ".png"; ".webp"; ".gif"; ".bmp"]
      /\ isSupported m = negb (extension m =? "bmp")%string
      /\ mimeType m
         = (if (extension m =? "jpg")%string || (extension m =? "jpeg")%string
            then "image/jpeg" else "image/" ++ extension m).
Proof.
  split; [reflexivity |].
  apply (generateImageMetadata_of_valid_url PlainUrl.read
           "https://example.com/findaphoto/bigLink/17021.BMP").
  reflexivity.
Defined.

(** X19: what [generateImageMetadata] falls back on.  A path that ends
    in a slash has the file name "image", which is also its extension.  A
    last segment without a dot is its own extension, in lower case: the
    default "jpg" is not used for it.  The default "jpg" is the extension
    of a last segment that ends in a dot. *)
Theorem generateImageMetadata_defaults :
  forall (URL_parse : string -> option URL) (url : string) (u : URL),
    URL_parse url = Some u ->
    (forall pre,
        pathname u = pre ++ "/" ->
        generateImageMetadata URL_parse url
        = Some {| filename := "image"; extension := "image";
                  mimeType := "image/jpeg"; isSupported := false |})
    /\ (forall pre name,
          pathname u = pre ++ String "/"%char name ->
          name <> "" ->
          without "/"%char name = true ->
          without "."%char name = true ->
          exists m : ImageMetadata,
            generateImageMetadata URL_parse url = Some m
            /\ filename m = name
            /\ extension m = JS.toLowerCase name
            /\ isSupported m
               = existsb (String.eqb (JS.toLowerCase name))
                         ["jpg"; "jpeg"; "png"; "webp"; "gif"])
    /\ (forall pre stem,
          pathname u = pre ++ String "/"%char (stem ++ ".") ->
          without "/"%char stem = true ->
          generateImageMetadata URL_parse url
          = Some {| filename := stem ++ "."; extension := "jpg";
                    mimeType := "image/jpeg"; isSupported := true |}).
Proof.
  intros URL_parse url u Hparse. split; [| split].
  - intros pre Hpath.
    now rewrite (generateImageMetadata_of_name URL_parse url u pre "" Hparse Hpath eq_refl).
  - intros pre name Hpath Hne Hslash Hdot.
    rewrite (generateImageMetadata_of_name URL_parse url u pre name Hparse Hpath Hslash).
    cbv zeta. rewrite (ParseIntFacts.orElse_nonempty name "image" Hne).
    rewrite (SegmentFacts.split_without name "."%char Hdot). simpl JS.pop. simpl option_map.
    rewrite (ParseIntFacts.orElse_nonempty (JS.toLowerCase name) "jpg")
      by (apply toLowerCase_nonempty, Hne).
    eexists. split; [reflexivity |]. repeat split.
  - intros pre stem Hpath Hslash.
    rewrite (generateImageMetadata_of_name URL_parse url u pre (stem ++ ".") Hparse Hpath)
      by (rewrite without_append, Hslash; reflexivity).
    cbv zeta. rewrite (ParseIntFacts.orElse_nonempty (stem ++ ".") "image")
      by (destruct stem; discriminate).
    now rewrite (SegmentFacts.pop_split_after_sep stem "" "."%char eq_refl).
Qed.

Lemma generateImageMetadata_defaults_witness :
  PlainUrl.read "https://example.com/findaphoto/README"
  = Some {| protocol := "https:"; hostname := "example.com";
            pathname := "/findaphoto" ++ String "/"%char "README" |}
  /\ "README" <> ""
  /\ without "/"%char "README" = true
  /\ without "."%char "README" = true
  /\ exists m : ImageMetadata,
      generateImageMetadata PlainUrl.read "https://example.com/findaphoto/README" = Some m
      /\ filename m = "README"
      /\ extension m = JS.toLowerCase "README"
      /\ isSupported m
         = existsb (String.eqb (JS.toLowerCase "README"))
                   ["jpg"; "jpeg"; "png"; "webp"; "gif"].
Proof.
  assert (Hparse : PlainUrl.read "https://example.com/findaphoto/README"
                   = Some {| protocol := "https:"; hostname := "example.com";
                             pathname := "/findaphoto" ++ String "/"%char "README" |})
    by reflexivity.
  assert (Hne : "README" <> "") by discriminate.
  split; [exact Hparse |]. split; [exact Hne |]. split; [reflexivity |]. split; [reflexivity |].
  exact (proj1 (proj2 (generateImageMetadata_defaults PlainUrl.read
                         "https://example.com/findaphoto/README" _ Hparse))
           "/findaphoto" "README" eq_refl Hne eq_refl eq_refl).
Defined.

End MetadataFacts.

(* ===================================================================== *)
(** * The headers of a served image *)
(* ===================================================================== *)

Module HeaderFacts.
Import Eff FindaphotoProxy ProxyRun.

Lemma header_replace_same (name value : string) (h : Headers) :
  header name (replaceHeader name value h) = Some value.
Proof.
  induction h as [| [n v] h IH]; simpl.
  - now rewrite String.eqb_refl.
  - destruct (JS.toLowerCase n =? JS.toLowerCase name)%string eqn:E; simpl; now rewrite E.
Qed.

Lemma header_replace_other (name other value : string) (h : Headers) :
  (JS.toLowerCase name =? JS.toLowerCase other)%string = false ->
  header other (replaceHeader name value h) = header other h.
Proof.
  intros Hne. induction h as [| [n v] h IH]; simpl.
  - now rewrite Hne.
  - destruct (JS.toLowerCase n =? JS.toLowerCase name)%string eqn:E; simpl.
    + apply String.eqb_eq in E. rewrite E, Hne. reflexivity.
    + now rewrite IH.
Qed.

Lemma Headers_set_ok (name value : string) (h h' : Headers) :
  Headers_set name value h = Ok h' -> h' = replaceHeader name (normalizeValue value) h.
Proof.
  unfold Headers_set. destruct (isHeaderValue _); [| discriminate]. now intros [= <-].
Qed.

Lemma Headers_set_same (name value : string) (h h' : Headers) :
  Headers_set name value h = Ok h' -> header name h' = Some (normalizeValue value).
Proof. intros H. apply Headers_set_ok in H. subst. apply header_replace_same. Qed.

Lemma Headers_set_other (name other value : string) (h h' : Headers) :
  (JS.toLowerCase name =? JS.toLowerCase other)%string = false ->
  Headers_set name value h = Ok h' -> header other h' = header other h.
Proof. intros N H. apply Headers_set_ok in H. subst. now apply header_replace_other. Qed.

Lemma Headers_setIfPresent_same (name : string) (value : option string) (h h' : Headers) :
  header name h = None ->
  Headers_setIfPresent name value h = Ok h' -> header name h' = passedThrough value.
Proof.
  intros Hnone H. unfold passedThrough.
  destruct value as [[| c r] |]; simpl in H.
  - injection H as <-. exact Hnone.
  - now apply Headers_set_same in H.
  - injection H as <-. exact Hnone.
Qed.

Lemma Headers_setIfPresent_other (name other : string) (value : option string)
      (h h' : Headers) :
  (JS.toLowerCase name =? JS.toLowerCase other)%string = false ->
  Headers_setIfPresent name value h = Ok h' -> header other h' = header other h.
Proof.
  intros N H. destruct value as [[| c r] |]; simpl in H.
  - now injection H as <-.
  - now apply Headers_set_other with (other := other) in H.
  - now injection H as <-.
Qed.

Ltac peel H :=
  match type of H with
  | andThen ?r ?k = Ok ?x =>
      let h := fresh "h" in
      let E := fresh "E" in
      destruct r as [h | ?] eqn:E;
      [change (k h = Ok x) in H; cbv beta in H | discriminate H]
  end.

(** Follows a header back through the [set]s of other headers made after it. *)
Ltac back :=
  repeat match goal with
    | E : Headers_set ?n _ ?h0 = Ok ?h1 |- context [header ?o ?h1] =>
        rewrite (Headers_set_other n o _ h0 h1 eq_refl E)
    | E : Headers_setIfPresent ?n _ ?h0 = Ok ?h1 |- context [header ?o ?h1] =>
        rewrite (Headers_setIfPresent_other n o _ h0 h1 eq_refl E)
    end.

Lemma headersBeforeTiming_ok (originalUrl : string) (response : OriginResponse)
      (h : Headers) :
  headersBeforeTiming originalUrl response = Ok h ->
  header "Content-Type" h
  = Some (normalizeValue (JS.orElse (content_type response) "image/jpeg"))
  /\ header "Cache-Control" h = Some "public, max-age=31536000, immutable"
  /\ header "Access-Control-Allow-Origin" h = Some "*"
  /\ header "Content-Length" h = passedThrough (content_length response)
  /\ header "Last-Modified" h = passedThrough (last_modified response)
  /\ header "ETag" h = passedThrough (etag response)
  /\ header "X-Original-URL" h = Some (normalizeValue originalUrl).
Proof.
  intros H. unfold headersBeforeTiming in H. cbv zeta in H.
  do 9 peel H.
  repeat split; back.
  - apply (Headers_set_same _ _ _ _ E).
  - apply (Headers_set_same _ _ _ _ E0).
  - apply (Headers_set_same _ _ _ _ E1).
  - refine (Headers_setIfPresent_same _ _ _ _ _ E4); back; reflexivity.
  - refine (Headers_setIfPresent_same _ _ _ _ _ E5); back; reflexivity.
  - refine (Headers_setIfPresent_same _ _ _ _ _ E6); back; reflexivity.
  - apply (Headers_set_same _ _ _ _ H).
Qed.

Lemma headersFromTiming_ok (URL_parse : string -> option ProxyUtils.URL)
      (originalUrl : string) (elapsed : Z) (h h' : Headers) :
  headersFromTiming URL_parse originalUrl elapsed h = Ok h' ->
  header "X-Cache-Status" h' = Some "miss"
  /\ forall name,
       existsb (fun later => (JS.toLowerCase later =? JS.toLowerCase name)%string)
               ["X-Response-Time"; "X-Cache-Status"; "X-Image-Format"; "X-Image-Filename"]
       = false ->
       header name h' = header name h.
Proof.
  intros H. unfold headersFromTiming in H. cbv zeta in H.
  do 2 peel H.
  assert (Hmiss : header "X-Cache-Status" h1 = Some "miss")
    by apply (Headers_set_same _ _ _ _ E0).
  assert (Hkeep : forall name,
            (JS.toLowerCase "X-Response-Time" =? JS.toLowerCase name)%string = false ->
            (JS.toLowerCase "X-Cache-Status" =? JS.toLowerCase name)%string = false ->
            header name h1 = header name h).
  { intros name N1 N2.
    rewrite (Headers_set_other _ _ _ _ _ N2 E0). apply (Headers_set_other _ _ _ _ _ N1 E). }
  destruct (ProxyUtils.generateImageMetadata URL_parse originalUrl) as [m |].
  - peel H. split.
    + back. exact Hmiss.
    + intros name N. cbn [existsb] in N. rewrite !orb_false_iff in N.
      destruct N as (N1 & N2 & N3 & N4 & _).
      rewrite (Headers_set_other _ _ _ _ _ N4 H).
      rewrite (Headers_set_other _ _ _ _ _ N3 E1). now apply Hkeep.
  - injection H as <-. split; [exact Hmiss |].
    intros name N. cbn [existsb] in N. rewrite !orb_false_iff in N.
    destruct N as (N1 & N2 & _). now apply Hkeep.
Qed.

(** X20: the headers of a served image.  When the handler answers with
    the image (status 200), the origin answered with a 2xx status and
    that body, and the answer carries the one-year immutable
    [Cache-Control], [X-Cache-Status: miss], the open CORS origin, the
    URL the image came from, the origin's [Content-Type] (image/jpeg when
    it sent none), and the origin's [ETag], [Last-Modified] and
    [Content-Length] exactly when the origin sent non-empty ones. *)
Theorem served_image_headers :
  forall (URL_parse : string -> option ProxyUtils.URL) (env : Env) (req : Request)
         (w w' : World) (image : list Byte.byte) (headers : Headers),
    handler URL_parse env req w = (Ok (RawResponse (Some image) 200 headers), w') ->
    exists response : OriginResponse,
      fetch env (originalUrlOf (requestPath req)) (fetchHeaders req) = Some response
      /\ WallpaperUtils.ok (status response) = true
      /\ body response = Some image
      /\ header "Cache-Control" headers = Some "public, max-age=31536000, immutable"
      /\ header "X-Cache-Status" headers = Some "miss"
      /\ header "Access-Control-Allow-Origin" headers = Some "*"
      /\ header "X-Original-URL" headers
         = Some (normalizeValue (originalUrlOf (requestPath req)))
      /\ header "Content-Type" headers
         = Some (normalizeValue (JS.orElse (content_type response) "image/jpeg"))
      /\ header "ETag" headers = passedThrough (etag response)
      /\ header "Last-Modified" headers = passedThrough (last_modified response)
      /\ header "Content-Length" headers = passedThrough (content_length response).
Proof.
  intros URL_parse env req w w' image headers.
  unfold handler, bind, tryCatch. unfold Date_now at 1. cbv beta iota zeta.
  destruct (String.eqb (requestPath req) "");
    [unfold throw, Date_now, ret; rewrite HandlerFacts.updateProxyStats_run; discriminate |].
  destruct (ProxyUtils.valid (ProxyUtils.validateImageUrl URL_parse _)); cbn [negb];
    [| unfold throw, Date_now, ret; rewrite HandlerFacts.updateProxyStats_run; discriminate].
  destruct (fetch env _ _) as [response |];
    [| unfold throw, Date_now, ret; rewrite HandlerFacts.updateProxyStats_run; discriminate].
  unfold ret at 1. cbv beta iota.
  destruct (status response =? 304);
    [unfold throw, Date_now, ret; rewrite HandlerFacts.updateProxyStats_run; discriminate |].
  destruct (WallpaperUtils.ok (status response)) eqn:Hok; cbn [negb];
    [| unfold throw, Date_now, ret; rewrite HandlerFacts.updateProxyStats_run; discriminate].
  destruct (body response) as [image' |] eqn:Hbody;
    [| unfold throw, Date_now, ret; rewrite HandlerFacts.updateProxyStats_run; discriminate].
  unfold ret at 1. cbv beta iota. unfold lift at 1.
  destruct (headersBeforeTiming _ response) as [h1 | e1] eqn:Hh1;
    [| unfold throw, Date_now, ret; rewrite HandlerFacts.updateProxyStats_run; discriminate].
  unfold Date_now at 1. cbv beta iota. unfold lift at 1. cbn [reads].
  destruct (headersFromTiming URL_parse _ _ h1) as [h2 | e2] eqn:Hh2;
    [| unfold throw, Date_now, ret; rewrite HandlerFacts.updateProxyStats_run; discriminate].
  unfold throw, Date_now, ret. rewrite HandlerFacts.updateProxyStats_run.
  intros H. injection H as <- <- _.
  apply headersBeforeTiming_ok in Hh1.
  destruct Hh1 as (Htype & Hcache & Hcors & Hlen & Hmod & Htag & Hurl).
  apply headersFromTiming_ok in Hh2. destruct Hh2 as (Hmiss & Hkeep).
  exists response.
  rewrite (Hkeep "Cache-Control" eq_refl), (Hkeep "Access-Control-Allow-Origin" eq_refl),
    (Hkeep "X-Original-URL" eq_refl), (Hkeep "Content-Type" eq_refl),
    (Hkeep "ETag" eq_refl), (Hkeep "Last-Modified" eq_refl),
    (Hkeep "Content-Length" eq_refl).
  repeat split; assumption.
Qed.

(** An origin that answers 200 with a two-byte body, an [ETag] and no
    [Last-Modified]. *)
Lemma served_image_headers_witness :
  exists (headers : Headers) (w' : World),
    handler PlainUrl.read (answering (originAnswer 200 (Some [Byte.x01; Byte.x02])))
            (get "bigLink/17021.jpg") freshWorld
    = (Ok (RawResponse (Some [Byte.x01; Byte.x02]) 200 headers), w')
    /\ header "ETag" headers = Some "abc"
    /\ header "Last-Modified" headers = None.
Proof.
  eexists. eexists. split; [vm_compute; reflexivity |].
  match goal with
  | |- header _ ?hs = _ /\ _ =>
      destruct (served_image_headers PlainUrl.read
                  (answering (originAnswer 200 (Some [Byte.x01; Byte.x02])))
                  (get "bigLink/17021.jpg") freshWorld _ [Byte.x01; Byte.x02] hs
                  ltac:(vm_compute; reflexivity))
        as (response & Hfetch & _ & _ & _ & _ & _ & _ & _ & Htag & Hmod & _)
  end.
  injection Hfetch as <-.
  exact (conj Htag Hmod).
Defined.

End HeaderFacts.
